(** * MOA: interactive geospatial canvas (App.tsx, MapComponent, ResultsModal)

    A shallow embedding of the projection math, the drawing session, the
    shared data store and the spatial analytics of the application.

    JavaScript [number]s are modelled as real numbers: every arithmetic
    operator is the exact one, [NaN] and the infinities have no
    counterpart, and rounding is absent.  The point-in-polygon test, whose
    answer can turn on a rounding, is written over an interface of the
    arithmetic it uses and is also run on binary64 numbers.  An optional
    field ([moValue?], the fields of an imported row) is an [option]. *)

From Stdlib Require Import String Reals Lra Lia List ZArith Bool.
From Stdlib Require Import DecimalString Zfloor.
From Stdlib Require PrimFloat DecimalNat DecimalFacts.
Import ListNotations.
Open Scope R_scope.

(** ** JavaScript operators on numbers *)

Module JS.

(** [a < b], [a > b], [a >= b] and [a !== b] on numbers. *)
Definition ltb (a b : R) : bool := if Rlt_dec a b then true else false.
Definition gtb (a b : R) : bool := if Rgt_dec a b then true else false.
Definition geb (a b : R) : bool := if Rge_dec a b then true else false.
Definition neqb (a b : R) : bool := if Req_dec_T a b then false else true.

(** Truthiness of a possibly undefined number: [undefined] and [0] are
    falsy. *)
Definition truthy (a : option R) : bool :=
  match a with
  | Some v => neqb v 0
  | None => false
  end.

(** [a || b] where both sides may be undefined. *)
Definition or (a b : option R) : option R := if truthy a then a else b.

(** [a || b] where the right-hand side is a number. *)
Definition orNum (a : option R) (b : R) : R :=
  match or a (Some b) with
  | Some v => v
  | None => b
  end.

(** [a ?? b]: only [undefined] falls through. *)
Definition nullish (a : option R) (b : R) : R :=
  match a with
  | Some v => v
  | None => b
  end.

(** Truthiness of a possibly undefined string: [undefined] and the empty
    string are falsy. *)
Definition truthyStr (a : option string) : bool :=
  match a with
  | Some EmptyString => false
  | Some _ => true
  | None => false
  end.

Definition orStr (a b : option string) : option string :=
  if truthyStr a then a else b.

(** [a || b] where the right-hand side is a string. *)
Definition orStrLit (a : option string) (b : string) : string :=
  match orStr a (Some b) with
  | Some v => v
  | None => b
  end.

(** [Math.max(...vs)] and [Math.min(...vs)].  On no argument JavaScript
    answers [-Infinity] and [Infinity]; the callers below only spread a
    non-empty array, and [0] stands in for the unreachable case. *)
Definition Math_max (vs : list R) : R :=
  match vs with
  | [] => 0
  | v :: rest => fold_left Rmax rest v
  end.

Definition Math_min (vs : list R) : R :=
  match vs with
  | [] => 0
  | v :: rest => fold_left Rmin rest v
  end.

(** [Math.round x] is [floor (x + 0.5)]. *)
Definition Math_round (x : R) : Z := Zfloor (x + / 2).

(** Template-literal rendering of a non-negative integer. *)
Definition showNat (n : nat) : string := NilZero.string_of_uint (Nat.to_uint n).

Definition showN (n : N) : string := NilZero.string_of_uint (N.to_uint n).

(** [n.toString()] of an integer. *)
Definition showZ (z : Z) : string := NilZero.string_of_int (Z.to_int z).

(** [s.replace(pat, rep)] with a string pattern: the first occurrence of
    [pat], from the left, is replaced.  [rep] is taken as it is, which is
    what JavaScript does when it holds no dollar sign. *)
Fixpoint replace (pat rep s : string) : string :=
  if String.prefix pat s then
    (rep ++ String.substring (String.length pat)
              (String.length s - String.length pat) s)%string
  else
    match s with
    | EmptyString => EmptyString
    | String c rest => String c (replace pat rep rest)
    end.

End JS.

(** ** The arithmetic of the point-in-polygon test *)

Module Num.
Class Ops (T : Type) : Type := mk
  { zero : T;
    ten : T;
    add : T -> T -> T;
    sub : T -> T -> T;
    mul : T -> T -> T;
    div : T -> T -> T;
    ltb : T -> T -> bool;
    gtb : T -> T -> bool }.
End Num.

(** Exact arithmetic. *)
#[export] Instance real_ops : Num.Ops R :=
  Num.mk R 0 10 Rplus Rminus Rmult Rdiv JS.ltb JS.gtb.

(** IEEE 754 binary64 arithmetic, the one a JavaScript engine runs;
    [a > b] is [b < a], false as soon as one side is [NaN]. *)
Module Binary64.
Import PrimFloat.

#[export] Instance double_ops : Num.Ops float :=
  Num.mk float 0%float 10%float add sub mul div ltb (fun a b => ltb b a).

(** A triangle with a vertex at the origin and an edge along x = y / 3. *)
Definition triangle : list (float * float) := [(0, 0); (1, 3); (-5, 1)]%float.

(** The numbers written [0.03333333333333333] and [0.1]. *)
Definition lat : float := 0x1.1111111111111p-5%float.
Definition lng : float := 0x1.999999999999ap-4%float.

End Binary64.

(** ** Data model (the interfaces shared by the three components) *)

Module DataPoint.
Record t : Type := mk
  { id : string;
    lat : R;
    lng : R;
    name : string;
    value : R;
    moValue : option R }.
End DataPoint.

Module Polygon.
Record t : Type := mk
  { id : string;
    coordinates : list (R * R);
    name : string }.
End Polygon.

(** ** ResultsModal: the analytics *)

Module ResultsModal.

(** The expression [p.moValue || p.value], which every consumer repeats. *)
Definition moValueOrValue (p : DataPoint.t) : R :=
  JS.orNum (DataPoint.moValue p) (DataPoint.value p).

Module Stats.
Record t : Type := mk
  { sum : R; avg : R; max : R; min : R; std : R; count : nat }.
End Stats.

Definition calculateStats (dataPoints : list DataPoint.t) : option Stats.t :=
  if Nat.eqb (length dataPoints) 0 then None
  else
    let values := map moValueOrValue dataPoints in
    let sum := fold_left (fun a b => a + b) values 0 in
    let avg := sum / INR (length values) in
    let max := JS.Math_max values in
    let min := JS.Math_min values in
    let std :=
      sqrt (fold_left (fun sq n => sq + (n - avg) ^ 2) values 0
            / INR (length values)) in
    Some (Stats.mk sum avg max min std (length values)).

(** One row of the [ranges] table of [getValueDistribution]. *)
Module Range.
Record t : Type := mk
  { name : string; min : R; max : R; color : string }.
End Range.

Definition ranges : list Range.t :=
  [ Range.mk "Bajo (< 80)" 0 80 "#ef4444";
    Range.mk "Medio (80-90)" 80 90 "#f59e0b";
    Range.mk "Alto (90+)" 90 100 "#10b981" ].

Module Slice.
Record t : Type := mk { name : string; value : nat; color : string }.
End Slice.

Definition getValueDistribution (dataPoints : list DataPoint.t) : list Slice.t :=
  match calculateStats dataPoints with
  | None => []
  | Some _ =>
      map (fun range =>
             Slice.mk (Range.name range)
               (length (filter (fun p =>
                                  JS.geb (moValueOrValue p) (Range.min range)
                                  && JS.ltb (moValueOrValue p) (Range.max range))
                               dataPoints))
               (Range.color range))
          ranges
  end.

Section RayCast.

Context {T : Type} {ops : Num.Ops T}.

(** The test of one edge: [(yi > y) !== (yj > y)] and then, only when
    that holds, the comparison with the crossing abscissa. *)
Definition edgeCrosses (x y : T) (vi vj : T * T) : bool :=
  let '(xi, yi) := vi in
  let '(xj, yj) := vj in
  negb (Bool.eqb (Num.gtb yi y) (Num.gtb yj y))
  && Num.ltb x
       (Num.add (Num.div (Num.mul (Num.sub xj xi) (Num.sub y yi)) (Num.sub yj yi)) xi).

(** The loop [for (i = 0, j = n - 1; i < n; j = i++)], with [k] the
    number of iterations still to run. *)
Fixpoint rayLoop (coords : list (T * T)) (x y : T)
    (k i j : nat) (inside : bool) : bool :=
  match k with
  | O => inside
  | S k' =>
      let vi := nth i coords (Num.zero, Num.zero) in
      let vj := nth j coords (Num.zero, Num.zero) in
      rayLoop coords x y k' (S i) i
        (if edgeCrosses x y vi vj then negb inside else inside)
  end.

(** The body of the callback of [dataPoints.filter] in
    [getPolygonAnalysis], on the vertices of the polygon and the
    coordinates of the point.  Only the point is multiplied by ten; the
    vertices are read as they are stored.  On no vertex [j] starts at -1
    and the loop does not run. *)
Definition insidePolygon (coords : list (T * T)) (lat lng : T) : bool :=
  let x := Num.mul lat Num.ten in
  let y := Num.mul lng Num.ten in
  rayLoop coords x y (length coords) 0 (length coords - 1) false.

End RayCast.

Definition pointInPolygon (polygon : Polygon.t) (point : DataPoint.t) : bool :=
  insidePolygon (Polygon.coordinates polygon)
    (DataPoint.lat point) (DataPoint.lng point).

(** The same test under a division that faults on a zero divisor: the
    right conjunct of [&&], and with it the division, is evaluated only
    when the left one holds. *)
Definition checkedDiv (a b : R) : option R :=
  if Req_dec_T b 0 then None else Some (a / b).

Definition edgeCrossesChecked (x y : R) (vi vj : R * R) : option bool :=
  let '(xi, yi) := vi in
  let '(xj, yj) := vj in
  if negb (Bool.eqb (JS.gtb yi y) (JS.gtb yj y)) then
    match checkedDiv ((xj - xi) * (y - yi)) (yj - yi) with
    | Some q => Some (JS.ltb x (q + xi))
    | None => None
    end
  else Some false.

Fixpoint rayLoopChecked (coords : list (R * R)) (x y : R)
    (k i j : nat) (inside : bool) : option bool :=
  match k with
  | O => Some inside
  | S k' =>
      let vi := nth i coords (0, 0) in
      let vj := nth j coords (0, 0) in
      match edgeCrossesChecked x y vi vj with
      | Some c =>
          rayLoopChecked coords x y k' (S i) i (if c then negb inside else inside)
      | None => None
      end
  end.

Definition pointInPolygonChecked
    (polygon : Polygon.t) (point : DataPoint.t) : option bool :=
  let x := DataPoint.lat point * 10 in
  let y := DataPoint.lng point * 10 in
  let coords := Polygon.coordinates polygon in
  rayLoopChecked coords x y (length coords) 0 (length coords - 1) false.

(** The label of the [Estado] column of the detailed table. *)
Definition estado (p : DataPoint.t) : string :=
  if JS.geb (moValueOrValue p) 90 then "Alto"
  else if JS.geb (moValueOrValue p) 80 then "Medio"
  else "Bajo".

Module Analysis.
Record t : Type := mk
  { name : string; pointsCount : nat; avgValue : R; totalValue : R }.
End Analysis.

Definition getPolygonAnalysis
    (polygons : list Polygon.t) (dataPoints : list DataPoint.t) : list Analysis.t :=
  if Nat.eqb (length polygons) 0 then []
  else
    map (fun polygon =>
           let pointsInside := filter (pointInPolygon polygon) dataPoints in
           let total :=
             fold_left (fun sum p => sum + moValueOrValue p) pointsInside 0 in
           let avgValue :=
             if Nat.ltb 0 (length pointsInside)
             then total / INR (length pointsInside)
             else 0 in
           Analysis.mk (Polygon.name polygon) (length pointsInside) avgValue total)
        polygons.

End ResultsModal.

(** ** MapComponent: projection, viewport and drawing session *)

Module MapComponent.

Definition TILE_SIZE : R := 256.

Module Tile.
Record t : Type := mk { x : Z; y : Z; z : Z }.
End Tile.

(** [getBoundingClientRect()] of the map element. *)
Module Rect.
Record t : Type := mk { left : R; top : R; width : R; height : R }.
End Rect.

(** [Math.pow(2, z)] at an integer exponent. *)
Definition pow2 (z : Z) : R := powerRZ 2 z.

Definition latLngToTile (lat lng : R) (z : Z) : Tile.t :=
  let latRad := lat * PI / 180 in
  let n := pow2 z in
  let x := Zfloor ((lng + 180) / 360 * n) in
  let y := Zfloor ((1 - arcsinh (tan latRad) / PI) / 2 * n) in
  Tile.mk x y z.

Definition tileToLatLng (x y : R) (z : Z) : R * R :=
  let n := pow2 z in
  let lng := x / n * 360 - 180 in
  let latRad := atan (sinh (PI * (1 - 2 * y / n))) in
  let lat := latRad * 180 / PI in
  (lat, lng).

(** The component state: one field per [useState] hook. *)
Record State : Type := mkState
  { isDrawingPolygon : bool;
    isAddingPoint : bool;
    currentPolygonPoints : list (R * R);
    mapCenter : R * R;
    zoom : R;
    isDragging : bool;
    lastMousePos : R * R;
    showPointModal : bool;
    pendingPoint : option (R * R);
    pointName : string;
    pointMOValue : string }.

Definition initial : State :=
  mkState false false [] (0, 0) 2 false (0, 0) false None "" "".

(** [Math.max(1, Math.min(18, Math.round(zoom + 10)))]. *)
Definition tileZoom (zoom : R) : Z :=
  Z.max 1 (Z.min 18 (JS.Math_round (zoom + 10))).

(** [mapRef] is [None] while the element is not mounted. *)
Definition screenToLatLng (s : State) (mapRef : option Rect.t)
    (screenX screenY : R) : R * R :=
  match mapRef with
  | None => (0, 0)
  | Some rect =>
      let pixelX :=
        (screenX - Rect.left rect - Rect.width rect / 2) / zoom s
        + fst (mapCenter s) in
      let pixelY :=
        (screenY - Rect.top rect - Rect.height rect / 2) / zoom s
        + snd (mapCenter s) in
      let tileZ := tileZoom (zoom s) in
      let scale := pow2 tileZ in
      let tileX := pixelX / TILE_SIZE + scale / 2 in
      let tileY := pixelY / TILE_SIZE + scale / 2 in
      tileToLatLng tileX tileY tileZ
  end.

Definition latLngToScreen (s : State) (mapRef : option Rect.t)
    (lat lng : R) : R * R :=
  match mapRef with
  | None => (0, 0)
  | Some rect =>
      let tileZ := tileZoom (zoom s) in
      let tile := latLngToTile lat lng tileZ in
      let scale := pow2 tileZ in
      let pixelX := (IZR (Tile.x tile) - scale / 2) * TILE_SIZE in
      let pixelY := (IZR (Tile.y tile) - scale / 2) * TILE_SIZE in
      let screenX := (pixelX - fst (mapCenter s)) * zoom s + Rect.width rect / 2 in
      let screenY := (pixelY - snd (mapCenter s)) * zoom s + Rect.height rect / 2 in
      (screenX, screenY)
  end.

(** *** drawMap: the grid of tiles that is fetched *)

Definition ARCGIS_TILE_URL : string :=
  "https://services.arcgisonline.com/ArcGIS/rest/services/World_Imagery/MapServer/tile/{z}/{y}/{x}".

(** [Math.max(1, Math.min(18, Math.round(zoom + 8)))]. *)
Definition drawTileZoom (zoom : R) : Z :=
  Z.max 1 (Z.min 18 (JS.Math_round (zoom + 8))).

(** The numbers [drawMap] computes before its loops; [width] and [height]
    are those of the canvas once it has been sized. *)
Module Grid.
Record t : Type := mk
  { tileZ : Z;
    scale : R;
    tilesX : Z;
    tilesY : Z;
    startTileX : Z;
    startTileY : Z }.
End Grid.

Definition drawGrid (s : State) (width height : R) : Grid.t :=
  let tileZ := drawTileZoom (zoom s) in
  let scale := pow2 tileZ in
  let centerTileX := scale / 2 + fst (mapCenter s) / TILE_SIZE in
  let centerTileY := scale / 2 + snd (mapCenter s) / TILE_SIZE in
  let tilesX := (Zceil (width / (TILE_SIZE * zoom s)) + 2)%Z in
  let tilesY := (Zceil (height / (TILE_SIZE * zoom s)) + 2)%Z in
  let startTileX := Zfloor (centerTileX - IZR tilesX / 2) in
  let startTileY := Zfloor (centerTileY - IZR tilesY / 2) in
  Grid.mk tileZ scale tilesX tilesY startTileX startTileY.

(** The values of [t] in [for (t = start; t < start + count; t++)]. *)
Definition loopRange (start count : Z) : list Z :=
  map (fun k => (start + Z.of_nat k)%Z) (seq 0 (Z.to_nat count)).

(** The guard [tx >= 0 && ty >= 0 && tx < scale && ty < scale]. *)
Definition tileInRange (scale : R) (tx ty : Z) : bool :=
  JS.geb (IZR tx) 0 && JS.geb (IZR ty) 0
  && JS.ltb (IZR tx) scale && JS.ltb (IZR ty) scale.

(** The tiles for which an image is created, in the order of the loops. *)
Definition requestedTiles (s : State) (width height : R) : list (Z * Z) :=
  let g := drawGrid s width height in
  flat_map (fun tx =>
              flat_map (fun ty =>
                          if tileInRange (Grid.scale g) tx ty then [(tx, ty)] else [])
                       (loopRange (Grid.startTileY g) (Grid.tilesY g)))
           (loopRange (Grid.startTileX g) (Grid.tilesX g)).

(** [img.src] of the tile at column [tx] and row [ty]. *)
Definition tileUrl (tileZ tx ty : Z) : string :=
  JS.replace "{y}" (JS.showZ ty)
    (JS.replace "{x}" (JS.showZ tx)
       (JS.replace "{z}" (JS.showZ tileZ) ARCGIS_TILE_URL)).

(** Where [img.onload] paints the tile: the corner, and the side of the
    square. *)
Definition tileScreenX (s : State) (width : R) (tx : Z) : R :=
  let scale := pow2 (drawTileZoom (zoom s)) in
  let pixelX := (IZR tx - scale / 2) * TILE_SIZE in
  (pixelX - fst (mapCenter s)) * zoom s + width / 2.

Definition tileScreenY (s : State) (height : R) (ty : Z) : R :=
  let scale := pow2 (drawTileZoom (zoom s)) in
  let pixelY := (IZR ty - scale / 2) * TILE_SIZE in
  (pixelY - snd (mapCenter s)) * zoom s + height / 2.

Definition tileScreenSize (s : State) : R := TILE_SIZE * zoom s.

(** State updates that several handlers share. *)
Definition setDrawing (b : bool) (s : State) : State :=
  mkState b (isAddingPoint s) (currentPolygonPoints s) (mapCenter s) (zoom s)
    (isDragging s) (lastMousePos s) (showPointModal s) (pendingPoint s)
    (pointName s) (pointMOValue s).

Definition setAdding (b : bool) (s : State) : State :=
  mkState (isDrawingPolygon s) b (currentPolygonPoints s) (mapCenter s) (zoom s)
    (isDragging s) (lastMousePos s) (showPointModal s) (pendingPoint s)
    (pointName s) (pointMOValue s).

Definition setCurrentPolygonPoints (v : list (R * R)) (s : State) : State :=
  mkState (isDrawingPolygon s) (isAddingPoint s) v (mapCenter s) (zoom s)
    (isDragging s) (lastMousePos s) (showPointModal s) (pendingPoint s)
    (pointName s) (pointMOValue s).

Definition setMapCenter (c : R * R) (s : State) : State :=
  mkState (isDrawingPolygon s) (isAddingPoint s) (currentPolygonPoints s) c (zoom s)
    (isDragging s) (lastMousePos s) (showPointModal s) (pendingPoint s)
    (pointName s) (pointMOValue s).

Definition setZoom (z : R) (s : State) : State :=
  mkState (isDrawingPolygon s) (isAddingPoint s) (currentPolygonPoints s)
    (mapCenter s) z (isDragging s) (lastMousePos s) (showPointModal s)
    (pendingPoint s) (pointName s) (pointMOValue s).

Definition setIsDragging (b : bool) (s : State) : State :=
  mkState (isDrawingPolygon s) (isAddingPoint s) (currentPolygonPoints s)
    (mapCenter s) (zoom s) b (lastMousePos s) (showPointModal s)
    (pendingPoint s) (pointName s) (pointMOValue s).

Definition setLastMousePos (m : R * R) (s : State) : State :=
  mkState (isDrawingPolygon s) (isAddingPoint s) (currentPolygonPoints s)
    (mapCenter s) (zoom s) (isDragging s) m (showPointModal s)
    (pendingPoint s) (pointName s) (pointMOValue s).

Definition setShowPointModal (b : bool) (s : State) : State :=
  mkState (isDrawingPolygon s) (isAddingPoint s) (currentPolygonPoints s)
    (mapCenter s) (zoom s) (isDragging s) (lastMousePos s) b
    (pendingPoint s) (pointName s) (pointMOValue s).

Definition setPendingPoint (p : option (R * R)) (s : State) : State :=
  mkState (isDrawingPolygon s) (isAddingPoint s) (currentPolygonPoints s)
    (mapCenter s) (zoom s) (isDragging s) (lastMousePos s) (showPointModal s)
    p (pointName s) (pointMOValue s).

Definition setPointName (n : string) (s : State) : State :=
  mkState (isDrawingPolygon s) (isAddingPoint s) (currentPolygonPoints s)
    (mapCenter s) (zoom s) (isDragging s) (lastMousePos s) (showPointModal s)
    (pendingPoint s) n (pointMOValue s).

Definition setPointMOValue (v : string) (s : State) : State :=
  mkState (isDrawingPolygon s) (isAddingPoint s) (currentPolygonPoints s)
    (mapCenter s) (zoom s) (isDragging s) (lastMousePos s) (showPointModal s)
    (pendingPoint s) (pointName s) v.

Definition handleMapClick (mapRef : option Rect.t) (clientX clientY : R)
    (s : State) : State :=
  if isDragging s then s
  else if isDrawingPolygon s then
    let latLng := screenToLatLng s mapRef clientX clientY in
    setCurrentPolygonPoints (currentPolygonPoints s ++ [latLng]) s
  else if isAddingPoint s then
    let latLng := screenToLatLng s mapRef clientX clientY in
    setShowPointModal true (setPendingPoint (Some latLng) s)
  else s.

Definition handleMouseDown (clientX clientY : R) (s : State) : State :=
  if isDrawingPolygon s || isAddingPoint s then s
  else setLastMousePos (clientX, clientY) (setIsDragging true s).

Definition handleMouseMove (clientX clientY : R) (s : State) : State :=
  if negb (isDragging s) || isDrawingPolygon s || isAddingPoint s then s
  else
    let deltaX := clientX - fst (lastMousePos s) in
    let deltaY := clientY - snd (lastMousePos s) in
    setLastMousePos (clientX, clientY)
      (setMapCenter (fst (mapCenter s) - deltaX / zoom s,
                     snd (mapCenter s) - deltaY / zoom s) s).

Definition handleMouseUp (s : State) : State := setIsDragging false s.

Definition startDrawingPolygon (s : State) : State :=
  setCurrentPolygonPoints [] (setAdding false (setDrawing true s)).

Definition startAddingPoint (s : State) : State :=
  setCurrentPolygonPoints [] (setDrawing false (setAdding true s)).

Definition cancelDrawing (s : State) : State :=
  setCurrentPolygonPoints [] (setAdding false (setDrawing false s)).

(** The [Cancelar] button of the naming dialog. *)
Definition closePointModal (s : State) : State := setShowPointModal false s.

Definition zoomIn (s : State) : State := setZoom (Rmin (zoom s * 1.5) 20) s.

Definition zoomOut (s : State) : State := setZoom (Rmax (zoom s / 1.5) 0.1) s.

(** The [Finalizar] button is rendered only under this condition. *)
Definition finishButtonShown (s : State) : bool :=
  isDrawingPolygon s && Nat.leb 3 (length (currentPolygonPoints s)).

(** The handlers that reach the parent through the props.  [Parent] is
    the state of the component that owns the data store. *)
Section Props.

Context {Parent : Type}.
Variable polygons : Parent -> list Polygon.t.
Variable onAddPolygon : Polygon.t -> Parent -> Parent.
Variable onAddPoint : DataPoint.t -> Parent -> Parent.

(** [Date.now()] is the argument [now]. *)
Definition finishPolygon (now : N) (w : Parent * State) : Parent * State :=
  let '(parent, s) := w in
  let parent' :=
    if Nat.leb 3 (length (currentPolygonPoints s)) then
      let newPolygon :=
        Polygon.mk ("polygon-" ++ JS.showN now)
          (currentPolygonPoints s)
          ("Polígono " ++ JS.showNat (length (polygons parent) + 1)) in
      onAddPolygon newPolygon parent
    else parent in
  (parent', setDrawing false (setCurrentPolygonPoints [] s)).

(** [parseFloat] answers [None] for [NaN]. *)
Variable parseFloat : string -> option R.

Definition handleSavePoint (now : N) (w : Parent * State) : Parent * State :=
  let '(parent, s) := w in
  match pendingPoint s, pointName s, pointMOValue s with
  | None, _, _ => w
  | _, EmptyString, _ => w
  | _, _, EmptyString => w
  | Some pending, _, _ =>
      let newPoint :=
        DataPoint.mk ("manual-point-" ++ JS.showN now)
          (fst pending) (snd pending)
          (pointName s)
          (JS.orNum (parseFloat (pointMOValue s)) 0)
          (Some (JS.orNum (parseFloat (pointMOValue s)) 0)) in
      (onAddPoint newPoint parent,
       setAdding false
         (setPointMOValue ""
            (setPointName ""
               (setPendingPoint None (setShowPointModal false s)))))
  end.

(** What the rendered interface lets the user do: the two mode buttons,
    the finish button, the zoom buttons, the pointer on the map and the
    controls of the naming dialog. *)
Inductive Action : Type :=
| PolygonButton
| PointButton
| FinishButton
| ZoomInButton
| ZoomOutButton
| MapClick (clientX clientY : R)
| MapMouseDown (clientX clientY : R)
| MapMouseMove (clientX clientY : R)
| MapMouseUp
| MapMouseLeave
| DialogName (v : string)
| DialogValue (v : string)
| DialogCancel
| DialogSave
| DialogOpenChange (open : bool).

Definition nonEmpty (v : string) : bool :=
  match v with
  | EmptyString => false
  | _ => true
  end.

(** The finish button is rendered on three vertices or more, the save
    button is disabled without a name or a value, and the controls of the
    dialog exist while it is open. *)
Definition available (a : Action) (s : State) : bool :=
  match a with
  | FinishButton => finishButtonShown s
  | DialogName _ | DialogValue _ | DialogCancel => showPointModal s
  | DialogSave => showPointModal s && nonEmpty (pointName s) && nonEmpty (pointMOValue s)
  | _ => true
  end.

Definition dispatch (mapRef : option Rect.t) (now : N) (a : Action)
    (w : Parent * State) : Parent * State :=
  let '(parent, s) := w in
  match a with
  | PolygonButton =>
      (parent, if isDrawingPolygon s then cancelDrawing s else startDrawingPolygon s)
  | PointButton =>
      (parent, if isAddingPoint s then cancelDrawing s else startAddingPoint s)
  | FinishButton => finishPolygon now w
  | ZoomInButton => (parent, zoomIn s)
  | ZoomOutButton => (parent, zoomOut s)
  | MapClick clientX clientY => (parent, handleMapClick mapRef clientX clientY s)
  | MapMouseDown clientX clientY => (parent, handleMouseDown clientX clientY s)
  | MapMouseMove clientX clientY => (parent, handleMouseMove clientX clientY s)
  | MapMouseUp => (parent, handleMouseUp s)
  | MapMouseLeave => (parent, handleMouseUp s)
  | DialogName v => (parent, setPointName v s)
  | DialogValue v => (parent, setPointMOValue v s)
  | DialogCancel => (parent, closePointModal s)
  | DialogSave => handleSavePoint now w
  | DialogOpenChange open => (parent, setShowPointModal open s)
  end.

End Props.

End MapComponent.

(** ** App: the data store and the import path *)

Module App.

(** A raw imported record, restricted to the columns the import reads;
    a column holds a number (a string for the two name columns) or is
    absent. *)
Module Row.
Record t : Type := mk
  { latitud : option R;
    lat : option R;
    latitude : option R;
    longitud : option R;
    lng : option R;
    longitude : option R;
    nombre : option string;
    name : option string;
    valor : option R;
    value : option R }.
End Row.

Record State : Type := mkState
  { dataPoints : list DataPoint.t;
    polygons : list Polygon.t;
    isResultsModalOpen : bool;
    excelData : list Row.t;
    isProcessing : bool }.

Definition initial : State := mkState [] [] false [] false.

Definition setDataPoints (v : list DataPoint.t) (s : State) : State :=
  mkState v (polygons s) (isResultsModalOpen s) (excelData s) (isProcessing s).

Definition setPolygons (v : list Polygon.t) (s : State) : State :=
  mkState (dataPoints s) v (isResultsModalOpen s) (excelData s) (isProcessing s).

Definition setExcelData (v : list Row.t) (s : State) : State :=
  mkState (dataPoints s) (polygons s) (isResultsModalOpen s) v (isProcessing s).

(** The callback of [data.map]: the point made from [row] at [index].
    [random] lists the answers of [Math.random()] and [k] counts the
    calls made so far; the call happens only when both value columns
    are falsy. *)
Definition rowToPoint (random : nat -> R) (k : nat) (row : Row.t) (index : nat)
    : DataPoint.t * nat :=
  let lat := JS.orNum (JS.or (JS.or (Row.latitud row) (Row.lat row)) (Row.latitude row)) 0 in
  let lng := JS.orNum (JS.or (JS.or (Row.longitud row) (Row.lng row)) (Row.longitude row)) 0 in
  let name :=
    JS.orStrLit (JS.orStr (Row.nombre row) (Row.name row))
      ("Punto " ++ JS.showNat (index + 1))%string in
  let '(value, k') :=
    let v := JS.or (Row.valor row) (Row.value row) in
    if JS.truthy v then (JS.orNum v 0, k) else (random k * 100, S k) in
  (DataPoint.mk ("point-" ++ JS.showNat index)%string lat lng name value None, k').

Fixpoint mapRows (random : nat -> R) (k : nat) (data : list Row.t) (index : nat)
    : list DataPoint.t :=
  match data with
  | [] => []
  | row :: rest =>
      let '(point, k') := rowToPoint random k row index in
      point :: mapRows random k' rest (S index)
  end.

(** The predicate of [.filter]: [point.lat !== 0 && point.lng !== 0]. *)
Definition hasCoordinates (point : DataPoint.t) : bool :=
  JS.neqb (DataPoint.lat point) 0 && JS.neqb (DataPoint.lng point) 0.

Definition handleExcelDataLoad (random : nat -> R) (data : list Row.t)
    (s : State) : State :=
  let points := filter hasCoordinates (mapRows random 0 data 0) in
  setDataPoints points (setExcelData data s).

Definition handleAddPolygon (polygon : Polygon.t) (s : State) : State :=
  setPolygons (polygons s ++ [polygon]) s.

Definition handleAddPoint (point : DataPoint.t) (s : State) : State :=
  setDataPoints (dataPoints s ++ [point]) s.

(** The map component as [App] mounts it: [polygons], [onAddPolygon]
    and [onAddPoint] are bound to the store. *)
Definition finishPolygon (now : N)
    (w : State * MapComponent.State) : State * MapComponent.State :=
  MapComponent.finishPolygon polygons handleAddPolygon now w.

Definition handleSavePoint (parseFloat : string -> option R) (now : N)
    (w : State * MapComponent.State) : State * MapComponent.State :=
  MapComponent.handleSavePoint handleAddPoint parseFloat now w.

Definition dispatch (parseFloat : string -> option R)
    (mapRef : option MapComponent.Rect.t) (now : N) (a : MapComponent.Action)
    (w : State * MapComponent.State) : State * MapComponent.State :=
  MapComponent.dispatch polygons handleAddPolygon handleAddPoint parseFloat
    mapRef now a w.

End App.

(** ** Sidebar: the upload *)

Module Sidebar.

(** The records that every upload loads. *)
Definition mockRow (nombre : string) (latitud longitud valor : R) : App.Row.t :=
  App.Row.mk (Some latitud) None None (Some longitud) None None
    (Some nombre) None (Some valor) None.

Definition mockData : list App.Row.t :=
  [ mockRow "Punto A" 40.7128 (-74.0060) 85.5;
    mockRow "Punto B" 40.7589 (-73.9851) 92.3;
    mockRow "Punto C" 40.7282 (-73.7949) 78.1;
    mockRow "Punto D" 40.6782 (-73.9442) 91.7;
    mockRow "Punto E" 40.7505 (-73.9934) 88.9;
    mockRow "Punto F" 40.7061 (-74.0088) 76.4;
    mockRow "Punto G" 40.7614 (-73.9776) 94.2;
    mockRow "Punto H" 40.7420 (-74.0020) 82.6 ].

Record State : Type := mkState
  { isUploading : bool;
    uploadedFileName : option string }.

Definition initial : State := mkState false None.

(** [handleFileUpload] once its wait is over; [file] is the name of
    [event.target.files?.[0]], absent when no file was chosen. *)
Definition handleFileUpload {Parent : Type}
    (onExcelDataLoad : list App.Row.t -> Parent -> Parent)
    (file : option string) (w : Parent * State) : Parent * State :=
  match file with
  | None => w
  | Some fileName => (onExcelDataLoad mockData (fst w), mkState false (Some fileName))
  end.

End Sidebar.

(** ** Auxiliary definitions for the proofs *)

(** What can happen to the application: an action on the map component,
    taken when the interface offers it, or a batch of records handed to
    [handleExcelDataLoad]. *)
Inductive Event : Type :=
| OnMap (mapRef : option MapComponent.Rect.t) (now : N) (a : MapComponent.Action)
| Load (random : nat -> R) (data : list App.Row.t).

Definition step (parseFloat : string -> option R) (e : Event)
    (w : App.State * MapComponent.State) : App.State * MapComponent.State :=
  match e with
  | OnMap mapRef now a =>
      if MapComponent.available a (snd w)
      then App.dispatch parseFloat mapRef now a w
      else w
  | Load random data => (App.handleExcelDataLoad random data (fst w), snd w)
  end.

Definition run (parseFloat : string -> option R) (es : list Event)
    (w : App.State * MapComponent.State) : App.State * MapComponent.State :=
  fold_left (fun w e => step parseFloat e w) es w.

Definition start : App.State * MapComponent.State :=
  (App.initial, MapComponent.initial).

(** The vertex list turned by one place: the second vertex comes first and
    the first one last. *)
Definition rotated {A : Type} (l : list A) : list A :=
  match l with
  | [] => []
  | a :: rest => rest ++ [a]
  end.

(** What every state of the map component satisfies: the zoom factor is
    within its clamp, the two drawing modes are not on together, and there
    are vertices in progress only in the polygon mode. *)
Definition sessionInvariant (s : MapComponent.State) : Prop :=
  0.1 <= MapComponent.zoom s <= 20
  /\ MapComponent.isDrawingPolygon s && MapComponent.isAddingPoint s = false
  /\ (MapComponent.isDrawingPolygon s = false ->
      MapComponent.currentPolygonPoints s = []).

(** The polygons of the store are those the finish action made: three
    vertices at least, and the name that counts them. *)
Definition polygonsInvariant (polygons : list Polygon.t) : Prop :=
  Forall (fun q => (3 <= length (Polygon.coordinates q))%nat) polygons
  /\ (forall i q,
        nth_error polygons i = Some q ->
        Polygon.name q = ("Polígono " ++ JS.showNat (i + 1))%string).

(** A polygon session: the mode is entered and the map is clicked at each
    position of [clicks] in turn. *)
Definition clickAll (mapRef : option MapComponent.Rect.t) (clicks : list (R * R))
    (s : MapComponent.State) : MapComponent.State :=
  fold_left (fun s c => MapComponent.handleMapClick mapRef (fst c) (snd c) s) clicks s.

(** A point session up to the save button: the mode is entered, the map is
    clicked at (x, y), and a name and a value are typed in the dialog. *)
Definition typedPoint (mapRef : option MapComponent.Rect.t) (x y : R)
    (name value : string) (s : MapComponent.State) : MapComponent.State :=
  MapComponent.setPointMOValue value
    (MapComponent.setPointName name
       (MapComponent.handleMapClick mapRef x y (MapComponent.startAddingPoint s))).



Definition threeClicks : list (R * R) := [(100, 100); (300, 100); (200, 250)].

Definition notANumber : string -> option R := fun _ => None.

Module Braces.
Import Ascii.

(** No character of the string is an opening brace. *)
Fixpoint noBrace (s : string) : bool :=
  match s with
  | EmptyString => true
  | String c rest => negb (Ascii.eqb c "{"%char) && noBrace rest
  end.

(** The string opens with a brace. *)
Definition opens (s : string) : bool :=
  match s with
  | EmptyString => false
  | String c _ => Ascii.eqb c "{"%char
  end.

End Braces.

(** [pathParity] in any arithmetic. *)
Fixpoint crossingParity {T : Type} {ops : Num.Ops T}
    (x y : T) (prev : T * T) (vs : list (T * T)) : bool :=
  match vs with
  | [] => false
  | v :: rest =>
      xorb (ResultsModal.edgeCrosses x y v prev) (crossingParity x y v rest)
  end.

(** A unit square, and a point to the east of it. *)
Definition unitSquare : list (R * R) := [(0, 0); (0, 1); (1, 1); (1, 0)].

(** The points of [l] whose resolved value lies in the half-open interval
    from [lo] to [hi]. *)
Definition countBetween (lo hi : R) (l : list DataPoint.t) : nat :=
  length (filter (fun p => JS.geb (ResultsModal.moValueOrValue p) lo
                           && JS.ltb (ResultsModal.moValueOrValue p) hi) l).


(** Parity of the crossing edges along the path [prev, v1, v2, ...]: each
    vertex is tested against its predecessor, as the loop does. *)
Fixpoint pathParity (x y : R) (prev : R * R) (vs : list (R * R)) : bool :=
  match vs with
  | [] => false
  | v :: rest => xorb (ResultsModal.edgeCrosses x y v prev) (pathParity x y v rest)
  end.

Definition chainParity (x y : R) (l : list (R * R)) : bool :=
  match l with
  | [] => false
  | a :: rest => pathParity x y a rest
  end.

(** The sum of a list of numbers, right to left. *)
Definition sumR (l : list R) : R := fold_right Rplus 0 l.

(** A point with its value resolved once and for all: [value] holds what
    [p.moValue || p.value] answers and [moValue] is absent. *)
Definition resolved (p : DataPoint.t) : DataPoint.t :=
  DataPoint.mk (DataPoint.id p) (DataPoint.lat p) (DataPoint.lng p)
    (DataPoint.name p) (ResultsModal.moValueOrValue p) None.

(** A derived value, where there is one, repeats the raw value: what holds
    of every point the import and the naming dialog create. *)
Definition coherent (p : DataPoint.t) : Prop :=
  match DataPoint.moValue p with
  | Some m => DataPoint.value p = m
  | None => True
  end.

Definition reversed (polygon : Polygon.t) : Polygon.t :=
  Polygon.mk (Polygon.id polygon) (rev (Polygon.coordinates polygon))
    (Polygon.name polygon).

(** The four points of the worked example; their resolved values are
    80, 85, 90 and 95. *)
Definition samplePoints : list DataPoint.t :=
  [ DataPoint.mk "point-0" 40.7128 (-74.0060) "Punto A" 80 None;
    DataPoint.mk "manual-point-1" 40.7589 (-73.9851) "Punto B" 85 (Some 85);
    DataPoint.mk "point-2" 40.7282 (-73.7949) "Punto C" 90 None;
    DataPoint.mk "point-3" 40.6782 (-73.9442) "Punto D" 1 (Some 95) ].

(** The mode of the drawing session that the two flags encode. *)
Inductive Mode : Type := Idle | DrawingPolygon | AddingPoint.

Definition mode (s : MapComponent.State) : Mode :=
  if MapComponent.isDrawingPolygon s then DrawingPolygon
  else if MapComponent.isAddingPoint s then AddingPoint
  else Idle.

(** A map element of 800 by 600 pixels at the origin of the client area. *)
Definition sampleRect : MapComponent.Rect.t := MapComponent.Rect.mk 0 0 800 600.

(** A polygon session after two clicks on the map. *)
Definition twoVertices : MapComponent.State :=
  MapComponent.handleMapClick (Some sampleRect) 500 300
    (MapComponent.handleMapClick (Some sampleRect) 400 300
       (MapComponent.startDrawingPolygon MapComponent.initial)).

(** A point has been clicked in the adding mode and the naming dialog has
    been dismissed with its own [Cancelar] button. *)
Definition dismissedDialog : MapComponent.State :=
  MapComponent.closePointModal
    (MapComponent.handleMapClick (Some sampleRect) 400 300
       (MapComponent.startAddingPoint MapComponent.initial)).

(** The import of the worked example: a record at (0, 0) and one at
    (40.7, -74.0). *)
Definition sampleRows : list App.Row.t :=
  [ App.Row.mk None (Some 0) None None (Some 0) None None (Some "A"%string) None (Some 1);
    App.Row.mk None (Some 40.7) None None (Some (-74.0)) None
      None (Some "B"%string) None (Some 2) ].

(** A record on the equator: only its latitude is 0. *)
Definition equatorRow : App.Row.t :=
  App.Row.mk None (Some 0) None None (Some 10) None None (Some "E"%string) None (Some 3).

Definition halves : nat -> R := fun _ => / 2.

Definition manualPoint : DataPoint.t :=
  DataPoint.mk "manual-point-1700000000000" 40.7 (-74) "Punto A" 85.5 (Some 85.5).

(** Unfolds the operations of the exact arithmetic. *)
Ltac real_arith :=
  cbn [Num.zero Num.ten Num.add Num.sub Num.mul Num.div Num.ltb Num.gtb real_ops] in *.

(** A handler that leaves [isDrawingPolygon] set cannot have reached a
    state where it is clear. *)
Ltac discriminate_drawing Hd Hnd :=
  exfalso; revert Hnd;
  unfold MapComponent.handleMapClick, MapComponent.handleMouseDown,
    MapComponent.handleMouseMove, MapComponent.handleMouseUp,
    MapComponent.zoomIn, MapComponent.zoomOut, MapComponent.closePointModal;
  rewrite ?Hd; simpl;
  repeat match goal with
    | |- context [if ?b then _ else _] => destruct b eqn:?
    end;
  simpl; rewrite ?Hd; discriminate.

(** Decides the comparisons of a closed goal by linear arithmetic. *)
Ltac decide_R :=
  repeat match goal with
    | |- context [Rlt_dec ?a ?b] => destruct (Rlt_dec a b); try lra
    | |- context [Rgt_dec ?a ?b] => destruct (Rgt_dec a b); try lra
    | |- context [Rge_dec ?a ?b] => destruct (Rge_dec a b); try lra
    | |- context [Rle_dec ?a ?b] => destruct (Rle_dec a b); try lra
    | |- context [Req_dec_T ?a ?b] => destruct (Req_dec_T a b); try lra
    end.

(** * Properties *)

(** ** Point in polygon *)

Section RayCasting.

Import ResultsModal.

Variables x y : R.

Lemma gtb_differ_neq (yi yj : R) :
  negb (Bool.eqb (JS.gtb yi y) (JS.gtb yj y)) = true -> yj - yi <> 0.
Proof.
  unfold JS.gtb.
  destruct (Rgt_dec yi y), (Rgt_dec yj y); simpl; intros H; try discriminate; lra.
Qed.

Lemma crossing_abscissa_sym (xi yi xj yj : R) :
  yj - yi <> 0 ->
  (xi - xj) * (y - yj) / (yi - yj) + xj = (xj - xi) * (y - yi) / (yj - yi) + xi.
Proof. intros H. field. split; lra. Qed.

Lemma edgeCrosses_sym (vi vj : R * R) :
  edgeCrosses x y vi vj = edgeCrosses x y vj vi.
Proof.
  destruct vi as [xi yi], vj as [xj yj]. unfold edgeCrosses. real_arith.
  destruct (negb (Bool.eqb (JS.gtb yi y) (JS.gtb yj y))) eqn:E.
  - pose proof (gtb_differ_neq _ _ E) as Hne.
    rewrite (crossing_abscissa_sym xi yi xj yj Hne).
    destruct (JS.gtb yi y), (JS.gtb yj y); simpl in *; congruence.
  - destruct (JS.gtb yi y), (JS.gtb yj y); simpl in *; congruence.
Qed.

Lemma edgeCrossesChecked_total (vi vj : R * R) :
  edgeCrossesChecked x y vi vj = Some (edgeCrosses x y vi vj).
Proof.
  destruct vi as [xi yi], vj as [xj yj]. unfold edgeCrossesChecked, edgeCrosses.
  real_arith.
  destruct (negb (Bool.eqb (JS.gtb yi y) (JS.gtb yj y))) eqn:E; [|reflexivity].
  apply gtb_differ_neq in E. unfold checkedDiv.
  destruct (Req_dec_T (yj - yi) 0) as [Hz|_]; [contradiction|reflexivity].
Qed.

Lemma rayLoopChecked_total (coords : list (R * R)) (k : nat) :
  forall i j inside,
    rayLoopChecked coords x y k i j inside = Some (rayLoop coords x y k i j inside).
Proof.
  induction k as [|k IH]; intros i j inside; simpl.
  - reflexivity.
  - rewrite edgeCrossesChecked_total. apply IH.
Qed.

Lemma skipn_nth_cons {A : Type} (d : A) (l : list A) (i : nat) :
  (i < length l)%nat -> skipn i l = nth i l d :: skipn (S i) l.
Proof.
  revert i. induction l as [|a l IH]; intros i Hi; simpl in Hi.
  - lia.
  - destruct i as [|i]; [reflexivity|].
    simpl. apply IH. lia.
Qed.

Lemma rayLoop_pathParity (coords : list (R * R)) (k : nat) :
  forall i j inside,
    (i + k = length coords)%nat ->
    rayLoop coords x y k i j inside
    = xorb inside (pathParity x y (nth j coords (0, 0)) (skipn i coords)).
Proof.
  induction k as [|k IH]; intros i j inside Hik.
  - rewrite skipn_all2 by lia. simpl. now rewrite xorb_false_r.
  - rewrite (skipn_nth_cons (0, 0) coords i) by lia.
    cbn [rayLoop pathParity]. real_arith. rewrite IH by lia.
    generalize (pathParity x y (nth i coords (0, 0)) (skipn (S i) coords)).
    generalize (edgeCrosses x y (nth i coords (0, 0)) (nth j coords (0, 0))).
    intros c r. now destruct c, inside, r.
Qed.

Lemma last_cons_default {A : Type} (a d : A) (l : list A) :
  last (a :: l) d = last l a.
Proof.
  revert a d. induction l as [|b l IH]; intros a d; [reflexivity|].
  change (last (a :: b :: l) d) with (last (b :: l) d).
  now rewrite !IH.
Qed.

Lemma nth_pred_last {A : Type} (d : A) (l : list A) :
  nth (length l - 1) l d = last l d.
Proof.
  induction l as [|a l IH]; [reflexivity|].
  destruct l as [|b l]; [reflexivity|].
  change (last (a :: b :: l) d) with (last (b :: l) d).
  rewrite <- IH. simpl. now rewrite Nat.sub_0_r.
Qed.

Lemma pathParity_snoc (vs : list (R * R)) :
  forall prev w,
    pathParity x y prev (vs ++ [w])
    = xorb (pathParity x y prev vs) (edgeCrosses x y w (last vs prev)).
Proof.
  induction vs as [|v vs IH]; intros prev w.
  - simpl. now rewrite xorb_false_r.
  - change (pathParity x y prev ((v :: vs) ++ [w]))
      with (xorb (edgeCrosses x y v prev) (pathParity x y v (vs ++ [w]))).
    rewrite IH, last_cons_default. simpl. now rewrite xorb_assoc.
Qed.

Lemma chainParity_snoc (l : list (R * R)) (w d : R * R) :
  l <> [] ->
  chainParity x y (l ++ [w])
  = xorb (chainParity x y l) (edgeCrosses x y w (last l d)).
Proof.
  destruct l as [|a l]; [congruence|]. intros _.
  rewrite last_cons_default. simpl. apply pathParity_snoc.
Qed.

Lemma chainParity_rev (l : list (R * R)) :
  chainParity x y (rev l) = chainParity x y l.
Proof.
  induction l as [|a l IH]; [reflexivity|].
  destruct l as [|b l]; [reflexivity|].
  change (rev (a :: b :: l)) with (rev (b :: l) ++ [a]).
  rewrite (chainParity_snoc _ a (0, 0)).
  - rewrite IH.
    change (rev (b :: l)) with (rev l ++ [b]). rewrite last_last.
    simpl. rewrite (edgeCrosses_sym a b). apply xorb_comm.
  - simpl. intros H. now apply app_eq_nil in H as [_ H].
Qed.

Lemma rayLoop_closed (coords : list (R * R)) :
  rayLoop coords x y (length coords) 0 (length coords - 1) false
  = chainParity x y (last coords (0, 0) :: coords).
Proof.
  rewrite rayLoop_pathParity by reflexivity.
  rewrite nth_pred_last. reflexivity.
Qed.

Lemma rayLoop_rev (coords : list (R * R)) :
  rayLoop (rev coords) x y (length (rev coords)) 0 (length (rev coords) - 1) false
  = rayLoop coords x y (length coords) 0 (length coords - 1) false.
Proof.
  rewrite !rayLoop_closed.
  destruct coords as [|a m]; [reflexivity|].
  change (rev (a :: m)) with (rev m ++ [a]). rewrite last_last.
  replace (a :: rev m ++ [a]) with (rev ((a :: m) ++ [a]))
    by (rewrite rev_app_distr; reflexivity).
  rewrite chainParity_rev.
  rewrite (chainParity_snoc (a :: m) a (0, 0)) by discriminate.
  simpl. apply xorb_comm.
Qed.

End RayCasting.

(** The unit square scaled by ten, and a point whose scaled coordinates
    fall at its centre: only the point is multiplied by ten, the vertices
    are read as they are stored. *)
Example pointInPolygon_square :
  ResultsModal.pointInPolygon
    (Polygon.mk "polygon-1" [(0, 0); (0, 10); (10, 10); (10, 0)] "P")
    (DataPoint.mk "point-0" 0.5 0.5 "A" 1 None) = true
  /\ ResultsModal.pointInPolygon
       (Polygon.mk "polygon-1" [(0, 0); (0, 10); (10, 10); (10, 0)] "P")
       (DataPoint.mk "point-1" 1.5 0.5 "B" 1 None) = false.
Proof.
  unfold ResultsModal.pointInPolygon, ResultsModal.insidePolygon; simpl.
  unfold JS.gtb, JS.ltb.
  split; decide_R; simpl; decide_R; reflexivity.
Qed.

(** C5, in exact arithmetic: reversing the vertex order of a polygon (the
    opposite winding direction) leaves the inside/outside answer of the
    even-odd ray-casting test unchanged, for every polygon and every point;
    the test reads the point at x = lat * 10, y = lng * 10.  The two
    orders visit the same edges with their ends exchanged, and the crossing
    abscissa of an edge is the same real number from either end. *)
Theorem pointInPolygon_reversed (polygon : Polygon.t) (point : DataPoint.t) :
  ResultsModal.pointInPolygon (reversed polygon) point
  = ResultsModal.pointInPolygon polygon point.
Proof.
  unfold ResultsModal.pointInPolygon, ResultsModal.insidePolygon, reversed.
  cbn [Polygon.coordinates]. apply rayLoop_rev.
Qed.

(** C5, as it is written, on the numbers the code runs on: in binary64
    arithmetic the crossing abscissa of the edge from (0, 0) to (1, 3) at
    y = 1 is [1 / 3] rounded from one end and [1 - 2 / 3] from the other,
    one unit in the last place apart, and the point at latitude
    0.03333333333333333 and longitude 0.1, whose x is the former, is
    inside the triangle in one vertex order and outside in the reverse. *)
Lemma insidePolygon_binary64_winding :
  ResultsModal.insidePolygon (ops := Binary64.double_ops)
    Binary64.triangle Binary64.lat Binary64.lng = true
  /\ ResultsModal.insidePolygon (ops := Binary64.double_ops)
       (rev Binary64.triangle) Binary64.lat Binary64.lng = false.
Proof. split; vm_compute; reflexivity. Qed.

(** C10: the division by [yj - yi] is reached only on an edge whose ends
    lie on opposite sides of the point's y, where the divisor is not zero:
    under a division that faults on zero the test never faults, and it
    answers what the unchecked test answers, whatever the polygon
    (horizontal and repeated edges included) and the point. *)
Theorem pointInPolygon_division_safe (polygon : Polygon.t) (point : DataPoint.t) :
  ResultsModal.pointInPolygonChecked polygon point
  = Some (ResultsModal.pointInPolygon polygon point).
Proof.
  unfold ResultsModal.pointInPolygonChecked, ResultsModal.pointInPolygon,
    ResultsModal.insidePolygon.
  apply rayLoopChecked_total.
Qed.

(** Without the guard the division would fault on a horizontal edge. *)
Remark horizontal_edge_divisor (xi xj yi x y : R) :
  ResultsModal.checkedDiv ((xj - xi) * (y - yi)) (yi - yi) = None
  /\ ResultsModal.edgeCrossesChecked x y (xi, yi) (xj, yi) = Some false.
Proof.
  unfold ResultsModal.edgeCrossesChecked, ResultsModal.checkedDiv. split.
  - decide_R. reflexivity.
  - now destruct (JS.gtb yi y).
Qed.

(** ** Statistics *)

Section Statistics.

Import ResultsModal.

Lemma fold_left_plus_sumR (f : R -> R) (l : list R) :
  forall acc, fold_left (fun a n => a + f n) l acc = acc + sumR (map f l).
Proof.
  induction l as [|v l IH]; intros acc; simpl.
  - lra.
  - rewrite IH. lra.
Qed.

Lemma fold_left_Rmax_spec (rest : list R) :
  forall v,
    In (fold_left Rmax rest v) (v :: rest)
    /\ Forall (fun u => u <= fold_left Rmax rest v) (v :: rest).
Proof.
  induction rest as [|u rest IH]; intros v; simpl.
  - split; [now left|]. constructor; [lra|constructor].
  - destruct (IH (Rmax v u)) as [Hin Hall]. split.
    + destruct Hin as [Hin|Hin]; [|now right; right].
      rewrite <- Hin.
      unfold Rmax. destruct (Rle_dec v u); [now right; left|now left].
    + inversion Hall as [|? ? Hm Hrest]; subst.
      pose proof (Rmax_l v u). pose proof (Rmax_r v u).
      constructor; [lra|]. constructor; [lra|assumption].
Qed.

Lemma fold_left_Rmin_spec (rest : list R) :
  forall v,
    In (fold_left Rmin rest v) (v :: rest)
    /\ Forall (fun u => fold_left Rmin rest v <= u) (v :: rest).
Proof.
  induction rest as [|u rest IH]; intros v; simpl.
  - split; [now left|]. constructor; [lra|constructor].
  - destruct (IH (Rmin v u)) as [Hin Hall]. split.
    + destruct Hin as [Hin|Hin]; [|now right; right].
      rewrite <- Hin.
      unfold Rmin. destruct (Rle_dec v u); [now left|now right; left].
    + inversion Hall as [|? ? Hm Hrest]; subst.
      pose proof (Rmin_l v u). pose proof (Rmin_r v u).
      constructor; [lra|]. constructor; [lra|assumption].
Qed.

Lemma Math_max_spec (vs : list R) :
  vs <> [] ->
  In (JS.Math_max vs) vs /\ Forall (fun u => u <= JS.Math_max vs) vs.
Proof.
  destruct vs as [|v rest]; [congruence|]. intros _. apply fold_left_Rmax_spec.
Qed.

Lemma Math_min_spec (vs : list R) :
  vs <> [] ->
  In (JS.Math_min vs) vs /\ Forall (fun u => JS.Math_min vs <= u) vs.
Proof.
  destruct vs as [|v rest]; [congruence|]. intros _. apply fold_left_Rmin_spec.
Qed.

Lemma samplePoints_values : map moValueOrValue samplePoints = [80; 85; 90; 95].
Proof.
  unfold samplePoints, moValueOrValue, JS.orNum, JS.or, JS.truthy, JS.neqb; simpl.
  decide_R. reflexivity.
Qed.

End Statistics.

(** C6, as the code has it: the global statistics are the sum, the
    arithmetic mean, the population standard deviation (square root of the
    mean squared deviation from the mean), the maximum, the minimum and the
    count of the resolved values, and the answer is null exactly when there
    is no point; on the values 80, 85, 90, 95 the mean is 87.5, the maximum
    95, the minimum 80 and the deviation sqrt((7.5^2+2.5^2+2.5^2+7.5^2)/4),
    the distance of 80 from the mean being 7.5. *)
Theorem calculateStats_correct (dataPoints : list DataPoint.t) :
  let values := map ResultsModal.moValueOrValue dataPoints in
  let n := INR (length dataPoints) in
  match ResultsModal.calculateStats dataPoints with
  | None => dataPoints = []
  | Some s =>
      dataPoints <> []
      /\ ResultsModal.Stats.sum s = sumR values
      /\ ResultsModal.Stats.avg s = sumR values / n
      /\ ResultsModal.Stats.std s
         = sqrt (sumR (map (fun v => (v - sumR values / n) ^ 2) values) / n)
      /\ In (ResultsModal.Stats.max s) values
      /\ Forall (fun v => v <= ResultsModal.Stats.max s) values
      /\ In (ResultsModal.Stats.min s) values
      /\ Forall (fun v => ResultsModal.Stats.min s <= v) values
      /\ ResultsModal.Stats.count s = length dataPoints
  end
  /\ ResultsModal.calculateStats samplePoints
     = Some (ResultsModal.Stats.mk 350 87.5 95 80
               (sqrt ((7.5 ^ 2 + 2.5 ^ 2 + 2.5 ^ 2 + 7.5 ^ 2) / 4)) 4).
Proof.
  intros values n. split.
  - unfold ResultsModal.calculateStats.
    destruct (Nat.eqb (length dataPoints) 0) eqn:E.
    + apply Nat.eqb_eq in E. now apply length_zero_iff_nil.
    + apply Nat.eqb_neq in E.
      assert (Hd : dataPoints <> []) by (intros ->; now apply E).
      assert (Hlen : length values = length dataPoints)
        by (subst values; apply length_map).
      assert (Hne : values <> []).
      { intros Hv. apply E. rewrite <- Hlen, Hv. reflexivity. }
      assert (Hsum : fold_left (fun a b => a + b) values 0 = sumR values).
      { rewrite (fold_left_plus_sumR (fun v => v)), map_id. lra. }
      fold values.
      cbn [ResultsModal.Stats.sum ResultsModal.Stats.avg
             ResultsModal.Stats.std ResultsModal.Stats.max
             ResultsModal.Stats.min ResultsModal.Stats.count].
      rewrite Hsum, Hlen. fold n.
      rewrite (fold_left_plus_sumR (fun v => (v - sumR values / n) ^ 2)), Rplus_0_l.
      destruct (Math_max_spec values Hne) as [Hmi Hma].
      destruct (Math_min_spec values Hne) as [Hni Hna].
      repeat split; assumption.
  - unfold ResultsModal.calculateStats. rewrite samplePoints_values. simpl.
    rewrite (Rmax_right 80 85), (Rmax_right 85 90), (Rmax_right 90 95) by lra.
    rewrite (Rmin_left 80 85), (Rmin_left 80 90), (Rmin_left 80 95) by lra.
    f_equal. f_equal; try lra. apply (f_equal sqrt). lra.
Qed.


(** C6, the worked example as it is written: the deviation of the sample is
    not sqrt((6.5^2+2.5^2+2.5^2+7.5^2)/4), which is the square root of
    27.75; the code answers the square root of 31.25. *)
Lemma calculateStats_sample_std :
  option_map ResultsModal.Stats.std (ResultsModal.calculateStats samplePoints)
  = Some (sqrt (125 / 4))
  /\ sqrt (125 / 4) <> sqrt ((6.5 ^ 2 + 2.5 ^ 2 + 2.5 ^ 2 + 7.5 ^ 2) / 4).
Proof.
  split.
  - unfold ResultsModal.calculateStats. rewrite samplePoints_values. simpl.
    f_equal. apply (f_equal sqrt). lra.
  - intros H. apply sqrt_inj in H; lra.
Qed.

(** ** Which value the analytics read *)

Section EffectiveValue.

Import ResultsModal.

Lemma moValueOrValue_cases (p : DataPoint.t) :
  moValueOrValue p
  = match DataPoint.moValue p with
    | Some m => if Req_dec_T m 0 then DataPoint.value p else m
    | None => DataPoint.value p
    end.
Proof.
  unfold moValueOrValue, JS.orNum, JS.or, JS.truthy, JS.neqb.
  destruct (DataPoint.moValue p) as [m|]; [|reflexivity].
  now destruct (Req_dec_T m 0).
Qed.

Lemma moValueOrValue_resolved (p : DataPoint.t) :
  moValueOrValue (resolved p) = moValueOrValue p.
Proof. reflexivity. Qed.

Lemma filter_map_resolved (f : DataPoint.t -> bool) (l : list DataPoint.t) :
  (forall p, f (resolved p) = f p) ->
  filter f (map resolved l) = map resolved (filter f l).
Proof.
  intros Hf. induction l as [|p l IH]; [reflexivity|].
  simpl. rewrite Hf. destruct (f p); simpl; now rewrite IH.
Qed.

Lemma fold_left_total_resolved (l : list DataPoint.t) :
  forall acc,
    fold_left (fun sum p => sum + moValueOrValue p) (map resolved l) acc
    = fold_left (fun sum p => sum + moValueOrValue p) l acc.
Proof.
  induction l as [|p l IH]; intros acc; [reflexivity|].
  simpl. rewrite IH. reflexivity.
Qed.

Lemma calculateStats_resolved (dataPoints : list DataPoint.t) :
  calculateStats (map resolved dataPoints) = calculateStats dataPoints.
Proof.
  unfold calculateStats. rewrite length_map, map_map.
  rewrite (map_ext _ _ moValueOrValue_resolved). reflexivity.
Qed.

Lemma getValueDistribution_resolved (dataPoints : list DataPoint.t) :
  getValueDistribution (map resolved dataPoints) = getValueDistribution dataPoints.
Proof.
  unfold getValueDistribution. rewrite calculateStats_resolved.
  destruct (calculateStats dataPoints); [|reflexivity].
  apply map_ext. intros range.
  rewrite filter_map_resolved by reflexivity. now rewrite length_map.
Qed.

Lemma getPolygonAnalysis_resolved
    (polygons : list Polygon.t) (dataPoints : list DataPoint.t) :
  getPolygonAnalysis polygons (map resolved dataPoints)
  = getPolygonAnalysis polygons dataPoints.
Proof.
  unfold getPolygonAnalysis.
  destruct (Nat.eqb (length polygons) 0); [reflexivity|].
  apply map_ext. intros polygon.
  rewrite filter_map_resolved by reflexivity.
  now rewrite fold_left_total_resolved, length_map.
Qed.

Lemma moValueOrValue_nullish_iff (p : DataPoint.t) :
  moValueOrValue p = JS.nullish (DataPoint.moValue p) (DataPoint.value p)
  <-> ~ (DataPoint.moValue p = Some 0 /\ DataPoint.value p <> 0).
Proof.
  rewrite moValueOrValue_cases. unfold JS.nullish.
  destruct (DataPoint.moValue p) as [m|].
  - destruct (Req_dec_T m 0) as [->|Hm].
    + split.
      * intros H [_ Hv]. contradiction.
      * intros H. destruct (Req_dec_T (DataPoint.value p) 0) as [Hv|Hv];
          [exact Hv|]. exfalso. apply H. now split.
    + split; [|reflexivity]. intros _ [Hs _]. injection Hs as Hs. contradiction.
  - split; [|reflexivity]. intros _ [Hs _]. discriminate.
Qed.

Lemma coherent_nullish (p : DataPoint.t) :
  coherent p ->
  moValueOrValue p = JS.nullish (DataPoint.moValue p) (DataPoint.value p).
Proof.
  intros Hc. apply moValueOrValue_nullish_iff. intros [Hm Hv].
  unfold coherent in Hc. rewrite Hm in Hc. contradiction.
Qed.

Lemma mapRows_coherent (random : nat -> R) (data : list App.Row.t) :
  forall k index, Forall coherent (App.mapRows random k data index).
Proof.
  induction data as [|row rest IH]; intros k index; simpl; [constructor|].
  unfold App.rowToPoint.
  destruct (JS.truthy (JS.or (App.Row.valor row) (App.Row.value row)));
    constructor; try apply IH; exact I.
Qed.

Lemma handleExcelDataLoad_coherent
    (random : nat -> R) (data : list App.Row.t) (s : App.State) :
  Forall coherent (App.dataPoints (App.handleExcelDataLoad random data s)).
Proof.
  unfold App.handleExcelDataLoad. cbn [App.dataPoints App.setDataPoints].
  apply Forall_forall. intros p Hp. apply filter_In in Hp as [Hp _].
  revert p Hp. apply Forall_forall, mapRows_coherent.
Qed.

Lemma handleSavePoint_coherent (parseFloat : string -> option R) (now : N)
    (app : App.State) (s : MapComponent.State) :
  Forall coherent (App.dataPoints app) ->
  Forall coherent (App.dataPoints (fst (App.handleSavePoint parseFloat now (app, s)))).
Proof.
  intros H. unfold App.handleSavePoint, MapComponent.handleSavePoint.
  destruct (MapComponent.pendingPoint s); [|exact H].
  destruct (MapComponent.pointName s); [exact H|].
  destruct (MapComponent.pointMOValue s); [exact H|].
  cbn [fst App.handleAddPoint App.dataPoints App.setDataPoints].
  apply Forall_app. split; [exact H|]. constructor; [reflexivity|constructor].
Qed.

End EffectiveValue.

(** C2, as the code has it: every consumer (global statistics, value
    buckets, per-polygon aggregates) reads a point through
    [p.moValue || p.value] and through nothing else: its answer is the same
    on the points with that value stored as their only value.  The
    expression answers the derived value when it is present and not zero,
    and the raw value otherwise: it departs from [derivedValue ?? value]
    exactly on a derived value of 0 over a raw value that is not 0, where
    it answers the raw value. *)
Theorem consumers_read_moValue_or_value
    (polygons : list Polygon.t) (dataPoints : list DataPoint.t) (p : DataPoint.t) :
  ResultsModal.moValueOrValue p
  = match DataPoint.moValue p with
    | Some m => if Req_dec_T m 0 then DataPoint.value p else m
    | None => DataPoint.value p
    end
  /\ (ResultsModal.moValueOrValue p
      = JS.nullish (DataPoint.moValue p) (DataPoint.value p)
      <-> ~ (DataPoint.moValue p = Some 0 /\ DataPoint.value p <> 0))
  /\ ResultsModal.calculateStats (map resolved dataPoints)
     = ResultsModal.calculateStats dataPoints
  /\ ResultsModal.getValueDistribution (map resolved dataPoints)
     = ResultsModal.getValueDistribution dataPoints
  /\ ResultsModal.getPolygonAnalysis polygons (map resolved dataPoints)
     = ResultsModal.getPolygonAnalysis polygons dataPoints.
Proof.
  split; [apply moValueOrValue_cases|].
  split; [apply moValueOrValue_nullish_iff|].
  split; [apply calculateStats_resolved|].
  split; [apply getValueDistribution_resolved|apply getPolygonAnalysis_resolved].
Qed.

(** C2, as it is written: a point with raw value 5 and a derived value
    present and equal to 0 enters the statistics with 5, where
    [derivedValue ?? value] is 0. *)
Lemma zero_moValue_reads_value :
  let p := DataPoint.mk "manual-point-1" 40.7 (-74) "Punto A" 5 (Some 0) in
  DataPoint.moValue p = Some 0
  /\ JS.nullish (DataPoint.moValue p) (DataPoint.value p) = 0
  /\ ResultsModal.moValueOrValue p = 5
  /\ option_map ResultsModal.Stats.sum (ResultsModal.calculateStats [p]) = Some 5
  /\ 5 <> 0.
Proof.
  intros p. assert (H : ResultsModal.moValueOrValue p = 5).
  { rewrite moValueOrValue_cases. simpl. decide_R; reflexivity. }
  repeat split; try reflexivity; try assumption; try lra.
  unfold ResultsModal.calculateStats. simpl. rewrite H. f_equal. lra.
Qed.


(** ** Viewport *)

(** C7: [zoomIn] multiplies the zoom factor by 1.5 and [zoomOut] divides it
    by 1.5, both clamped to the interval from 0.1 to 20; from a valid zoom
    factor, [zoomIn] then [zoomOut] gives the factor back, unless the upper
    clamp cut the product, in which case the answer is the saturated
    20 / 1.5. *)
Theorem zoomIn_zoomOut (s : MapComponent.State) :
  0.1 <= MapComponent.zoom s <= 20 ->
  MapComponent.zoom (MapComponent.zoomIn s) = Rmin (MapComponent.zoom s * 1.5) 20
  /\ MapComponent.zoom (MapComponent.zoomOut s) = Rmax (MapComponent.zoom s / 1.5) 0.1
  /\ 0.1 <= MapComponent.zoom (MapComponent.zoomIn s) <= 20
  /\ 0.1 <= MapComponent.zoom (MapComponent.zoomOut s) <= 20
  /\ (MapComponent.zoom s * 1.5 <= 20 ->
      MapComponent.zoom (MapComponent.zoomOut (MapComponent.zoomIn s))
      = MapComponent.zoom s)
  /\ (20 < MapComponent.zoom s * 1.5 ->
      MapComponent.zoom (MapComponent.zoomOut (MapComponent.zoomIn s)) = 20 / 1.5).
Proof.
  intros Hz. unfold MapComponent.zoomIn, MapComponent.zoomOut. simpl.
  repeat split; try reflexivity.
  - unfold Rmin. destruct (Rle_dec (MapComponent.zoom s * 1.5) 20); lra.
  - apply Rmin_r.
  - unfold Rmax. destruct (Rle_dec (MapComponent.zoom s / 1.5) 0.1); lra.
  - unfold Rmax. destruct (Rle_dec (MapComponent.zoom s / 1.5) 0.1); lra.
  - intros Hle. rewrite Rmin_left by assumption.
    rewrite Rmax_left by lra. lra.
  - intros Hlt. rewrite Rmin_right by lra. apply Rmax_left. lra.
Qed.

Lemma zoomIn_zoomOut_initial :
  0.1 <= MapComponent.zoom MapComponent.initial <= 20
  /\ MapComponent.zoom (MapComponent.zoomOut (MapComponent.zoomIn MapComponent.initial))
     = MapComponent.zoom MapComponent.initial.
Proof.
  assert (H : 0.1 <= MapComponent.zoom MapComponent.initial <= 20)
    by (simpl; lra).
  split; [exact H|].
  apply (zoomIn_zoomOut MapComponent.initial H). simpl. lra.
Defined.

(** ** Drawing session *)

Lemma mode_cancelDrawing (s : MapComponent.State) :
  mode (MapComponent.cancelDrawing s) = Idle
  /\ MapComponent.currentPolygonPoints (MapComponent.cancelDrawing s) = []
  /\ MapComponent.pendingPoint (MapComponent.cancelDrawing s)
     = MapComponent.pendingPoint s
  /\ MapComponent.showPointModal (MapComponent.cancelDrawing s)
     = MapComponent.showPointModal s.
Proof. repeat split. Qed.

Lemma handleSavePoint_isDrawingPolygon (parseFloat : string -> option R) (now : N)
    (app : App.State) (s : MapComponent.State) :
  MapComponent.isDrawingPolygon (snd (App.handleSavePoint parseFloat now (app, s)))
  = MapComponent.isDrawingPolygon s.
Proof.
  unfold App.handleSavePoint, MapComponent.handleSavePoint.
  destruct (MapComponent.pendingPoint s); [|reflexivity].
  destruct (MapComponent.pointName s); [reflexivity|].
  destruct (MapComponent.pointMOValue s); reflexivity.
Qed.

Lemma mode_Idle_not_drawing (s : MapComponent.State) :
  mode s = Idle -> MapComponent.isDrawingPolygon s = false.
Proof. unfold mode. now destruct (MapComponent.isDrawingPolygon s). Qed.

(** C4: [finishPolygon] on fewer than three vertices leaves the polygon
    list (the whole data store) as it was, and with fewer than three
    vertices the session does not return to Idle by the finish action but
    only by a cancel: the interface renders the finish button on three
    vertices or more, so the action is not offered and taking it changes
    nothing, and while a polygon session holds fewer than three vertices
    an action that the interface offers and that brings the session to
    Idle is a cancel. *)
Theorem finishPolygon_short (now : N) (app : App.State) (s : MapComponent.State) :
  (length (MapComponent.currentPolygonPoints s) < 3)%nat ->
  fst (App.finishPolygon now (app, s)) = app
  /\ MapComponent.available MapComponent.FinishButton s = false
  /\ (forall parseFloat mapRef,
        step parseFloat (OnMap mapRef now MapComponent.FinishButton) (app, s)
        = (app, s))
  /\ (forall parseFloat mapRef a,
        MapComponent.isDrawingPolygon s = true ->
        MapComponent.available a s = true ->
        mode (snd (App.dispatch parseFloat mapRef now a (app, s))) = Idle ->
        snd (App.dispatch parseFloat mapRef now a (app, s))
        = MapComponent.cancelDrawing s).
Proof.
  intros Hlen.
  assert (E : Nat.leb 3 (length (MapComponent.currentPolygonPoints s)) = false)
    by (apply Nat.leb_gt; exact Hlen).
  assert (F : MapComponent.finishButtonShown s = false)
    by (unfold MapComponent.finishButtonShown; rewrite E; apply andb_false_r).
  split; [|split; [|split]].
  - unfold App.finishPolygon, MapComponent.finishPolygon. now rewrite E.
  - exact F.
  - intros parseFloat mapRef. cbn [step snd MapComponent.available].
    now rewrite F.
  - intros parseFloat mapRef a Hd Hav Hidle.
    pose proof (mode_Idle_not_drawing _ Hidle) as Hnd.
    destruct a; cbn [App.dispatch MapComponent.dispatch snd] in Hidle, Hnd |- *.
    + now rewrite Hd.
    + destruct (MapComponent.isAddingPoint s); [reflexivity|discriminate].
    + simpl in Hav. congruence.
    + discriminate_drawing Hd Hnd.
    + discriminate_drawing Hd Hnd.
    + discriminate_drawing Hd Hnd.
    + discriminate_drawing Hd Hnd.
    + discriminate_drawing Hd Hnd.
    + discriminate_drawing Hd Hnd.
    + discriminate_drawing Hd Hnd.
    + discriminate_drawing Hd Hnd.
    + discriminate_drawing Hd Hnd.
    + discriminate_drawing Hd Hnd.
    + exfalso. fold (App.handleSavePoint parseFloat now (app, s)) in Hnd.
      rewrite handleSavePoint_isDrawingPolygon in Hnd. congruence.
    + discriminate_drawing Hd Hnd.
Qed.

Lemma finishPolygon_short_twoVertices :
  (length (MapComponent.currentPolygonPoints twoVertices) < 3)%nat
  /\ App.polygons (fst (App.finishPolygon 1700000000000%N (App.initial, twoVertices)))
     = App.polygons App.initial.
Proof.
  assert (H : (length (MapComponent.currentPolygonPoints twoVertices) < 3)%nat)
    by (simpl; lia).
  split; [exact H|].
  now rewrite (proj1 (finishPolygon_short 1700000000000%N App.initial twoVertices H)).
Defined.

(** C8, evaluated where it fails: after a click in the adding mode and the
    dismissal of the dialog, the session is in the adding mode with a
    pending coordinate; [cancelDrawing] brings it to Idle with no vertex,
    and the pending coordinate stays. *)
Theorem cancelDrawing_keeps_pendingPoint :
  mode dismissedDialog = AddingPoint
  /\ mode (MapComponent.cancelDrawing dismissedDialog) = Idle
  /\ MapComponent.currentPolygonPoints (MapComponent.cancelDrawing dismissedDialog) = []
  /\ MapComponent.pendingPoint (MapComponent.cancelDrawing dismissedDialog)
     = Some (MapComponent.screenToLatLng
               (MapComponent.startAddingPoint MapComponent.initial)
               (Some sampleRect) 400 300)
  /\ MapComponent.pendingPoint (MapComponent.cancelDrawing dismissedDialog) <> None.
Proof. repeat split. discriminate. Qed.

(** The sibling that does clear it: a confirmed point leaves no pending
    coordinate behind. *)
Remark handleSavePoint_clears_pendingPoint
    (parseFloat : string -> option R) (now : N)
    (app : App.State) (s : MapComponent.State) :
  MapComponent.pendingPoint (snd (App.handleSavePoint parseFloat now (app, s))) = None
  \/ snd (App.handleSavePoint parseFloat now (app, s)) = s.
Proof.
  unfold App.handleSavePoint, MapComponent.handleSavePoint.
  destruct (MapComponent.pendingPoint s) eqn:Ep; [|now right].
  destruct (MapComponent.pointName s); [now right|].
  destruct (MapComponent.pointMOValue s); [now right|now left].
Qed.

(** ** Data store *)

Lemma handleSavePoint_store (parseFloat : string -> option R) (now : N)
    (app : App.State) (s : MapComponent.State) :
  exists added,
    App.dataPoints (fst (App.handleSavePoint parseFloat now (app, s)))
    = App.dataPoints app ++ added
    /\ App.polygons (fst (App.handleSavePoint parseFloat now (app, s)))
       = App.polygons app.
Proof.
  unfold App.handleSavePoint, MapComponent.handleSavePoint.
  destruct (MapComponent.pendingPoint s) as [pending|];
    [|exists []; now rewrite app_nil_r].
  destruct (MapComponent.pointName s); [exists []; now rewrite app_nil_r|].
  destruct (MapComponent.pointMOValue s); [exists []; now rewrite app_nil_r|].
  eexists [_]. split; reflexivity.
Qed.

Lemma finishPolygon_store (now : N) (app : App.State) (s : MapComponent.State) :
  exists added,
    App.polygons (fst (App.finishPolygon now (app, s))) = App.polygons app ++ added
    /\ App.dataPoints (fst (App.finishPolygon now (app, s))) = App.dataPoints app.
Proof.
  unfold App.finishPolygon, MapComponent.finishPolygon.
  destruct (Nat.leb 3 (length (MapComponent.currentPolygonPoints s))).
  - eexists [_]. split; reflexivity.
  - exists []. now rewrite app_nil_r.
Qed.

(** C9, as the code has it: adding a polygon or a point, from the store's
    own handlers or from the map component, appends to one list and leaves
    the other as it was; loading a batch of records leaves the polygons as
    they were and puts the imported points in the place of the point list,
    whatever it held. *)
Theorem store_operations (random : nat -> R) (parseFloat : string -> option R)
    (now : N) (data : list App.Row.t) (polygon : Polygon.t) (point : DataPoint.t)
    (app : App.State) (s : MapComponent.State) :
  (App.polygons (App.handleAddPolygon polygon app) = App.polygons app ++ [polygon]
   /\ App.dataPoints (App.handleAddPolygon polygon app) = App.dataPoints app)
  /\ (App.dataPoints (App.handleAddPoint point app) = App.dataPoints app ++ [point]
      /\ App.polygons (App.handleAddPoint point app) = App.polygons app)
  /\ (exists added,
        App.polygons (fst (App.finishPolygon now (app, s)))
        = App.polygons app ++ added
        /\ App.dataPoints (fst (App.finishPolygon now (app, s))) = App.dataPoints app)
  /\ (exists added,
        App.dataPoints (fst (App.handleSavePoint parseFloat now (app, s)))
        = App.dataPoints app ++ added
        /\ App.polygons (fst (App.handleSavePoint parseFloat now (app, s)))
           = App.polygons app)
  /\ (App.polygons (App.handleExcelDataLoad random data app) = App.polygons app
      /\ App.dataPoints (App.handleExcelDataLoad random data app)
         = App.dataPoints (App.handleExcelDataLoad random data App.initial)).
Proof.
  split; [split; reflexivity|].
  split; [split; reflexivity|].
  split; [apply finishPolygon_store|].
  split; [apply handleSavePoint_store|].
  split; reflexivity.
Qed.

(** C9, as it is written: a point that is in the store is gone after a
    batch is loaded (here an empty one). *)
Lemma handleExcelDataLoad_drops_points :
  App.dataPoints (App.handleAddPoint manualPoint App.initial) = [manualPoint]
  /\ App.dataPoints
       (App.handleExcelDataLoad halves [] (App.handleAddPoint manualPoint App.initial))
     = [].
Proof. split; reflexivity. Qed.

(** ** Import *)

Lemma hasCoordinates_iff (p : DataPoint.t) :
  App.hasCoordinates p = true <-> DataPoint.lat p <> 0 /\ DataPoint.lng p <> 0.
Proof.
  unfold App.hasCoordinates, JS.neqb.
  destruct (Req_dec_T (DataPoint.lat p) 0), (Req_dec_T (DataPoint.lng p) 0);
    simpl; split; intros H; try discriminate; try reflexivity; tauto.
Qed.

Lemma mapRows_sampleRows (random : nat -> R) :
  App.mapRows random 0 sampleRows 0
  = [ DataPoint.mk "point-0" 0 0 "A" 1 None;
      DataPoint.mk "point-1" 40.7 (-74.0) "B" 2 None ].
Proof.
  unfold sampleRows, App.mapRows, App.rowToPoint. simpl.
  unfold JS.orNum, JS.or, JS.truthy, JS.neqb. simpl.
  decide_R; reflexivity.
Qed.

(** C3, as the code has it: the import keeps the candidates whose latitude
    and longitude are both different from 0 and discards every candidate
    with a 0 in either coordinate; the two records at
    (0, 0) and (40.7, -74.0) leave exactly the second. *)
Theorem import_keeps_both_nonzero
    (random : nat -> R) (data : list App.Row.t) (s : App.State) (p : DataPoint.t) :
  (In p (App.dataPoints (App.handleExcelDataLoad random data s))
   <-> In p (App.mapRows random 0 data 0)
       /\ DataPoint.lat p <> 0 /\ DataPoint.lng p <> 0)
  /\ App.dataPoints (App.handleExcelDataLoad random sampleRows s)
     = [ DataPoint.mk "point-1" 40.7 (-74.0) "B" 2 None ].
Proof.
  split.
  - unfold App.handleExcelDataLoad. cbn [App.dataPoints App.setDataPoints].
    rewrite filter_In, hasCoordinates_iff. reflexivity.
  - unfold App.handleExcelDataLoad. cbn [App.dataPoints App.setDataPoints].
    rewrite mapRows_sampleRows. unfold App.hasCoordinates, JS.neqb. simpl.
    decide_R; reflexivity.
Qed.

(** C3, as it is written: a record on the equator, with latitude 0 and
    longitude 10, has only one coordinate at 0 and is discarded all the
    same. *)
Lemma import_drops_equator :
  map (fun p => (DataPoint.lat p, DataPoint.lng p))
      (App.mapRows halves 0 [equatorRow] 0) = [(0, 10)]
  /\ 10 <> 0
  /\ App.dataPoints (App.handleExcelDataLoad halves [equatorRow] App.initial) = [].
Proof.
  assert (E : App.mapRows halves 0 [equatorRow] 0
              = [DataPoint.mk "point-0" 0 10 "E" 3 None]).
  { unfold equatorRow, App.mapRows, App.rowToPoint. simpl.
    unfold JS.orNum, JS.or, JS.truthy, JS.neqb. simpl.
    decide_R; reflexivity. }
  split; [now rewrite E|]. split; [lra|].
  unfold App.handleExcelDataLoad. cbn [App.dataPoints App.setDataPoints].
  rewrite E. unfold App.hasCoordinates, JS.neqb. simpl.
  decide_R; reflexivity.
Qed.

(** ** Projection *)

Section Projection.

Import MapComponent.

Lemma pow2_neq_0 (z : Z) : pow2 z <> 0.
Proof. unfold pow2. apply powerRZ_NOR. lra. Qed.

Lemma pow2_12 : pow2 12 = 4096.
Proof. unfold pow2. simpl. lra. Qed.

Lemma tileZoom_initial : tileZoom (zoom initial) = 12%Z.
Proof.
  unfold tileZoom, JS.Math_round. simpl zoom.
  rewrite (Zfloor_eq 12) by lra. reflexivity.
Qed.

(** The longitude that comes back is the one of the western edge of the
    tile that [latLngToTile] floors to, whatever the zoom and the pan. *)
Lemma roundtrip_lng (s : State) (width height lat lng : R) :
  zoom s <> 0 ->
  let rect := Some (Rect.mk 0 0 width height) in
  let n := pow2 (tileZoom (zoom s)) in
  let screen := latLngToScreen s rect lat lng in
  snd (screenToLatLng s rect (fst screen) (snd screen))
  = IZR (Zfloor ((lng + 180) / 360 * n)) / n * 360 - 180.
Proof.
  intros Hz rect n screen. subst screen rect. unfold screenToLatLng, latLngToScreen.
  cbn [fst snd Rect.left Rect.top Rect.width Rect.height tileToLatLng latLngToTile
         Tile.x Tile.y].
  fold n. unfold TILE_SIZE. field. split; [apply pow2_neq_0|exact Hz].
Qed.

Lemma latLngToTile_sample : latLngToTile 0 (1 / 100) 12 = Tile.mk 2048 2048 12.
Proof.
  unfold latLngToTile. rewrite pow2_12.
  replace (0 * PI / 180) with 0 by lra.
  rewrite tan_0, arcsinh_0.
  rewrite (Zfloor_eq 2048 ((1 / 100 + 180) / 360 * 4096)) by lra.
  rewrite (Zfloor_eq 2048 ((1 - 0 / PI) / 2 * 4096)).
  - reflexivity.
  - unfold Rdiv at 2. rewrite Rmult_0_l. lra.
Qed.

Lemma tileToLatLng_equator (x : R) :
  tileToLatLng x 2048 12 = (0, x / 4096 * 360 - 180).
Proof.
  unfold tileToLatLng. rewrite pow2_12.
  replace (PI * (1 - 2 * 2048 / 4096)) with 0 by lra.
  rewrite sinh_0, atan_0. f_equal.
  unfold Rdiv. now rewrite !Rmult_0_l.
Qed.

End Projection.

(** C1, evaluated where it fails.  At the initial zoom and pan, on a map
    element of 800 by 600 pixels, the point at latitude 0 and longitude
    0.01 lies in the viewport, 58 pixels to the right of the centre.  It
    is drawn at the centre (400, 300) of the element, the corner of its
    tile, and the centre maps back to (0, 0): the longitude is off by 0.01
    degrees, ten thousand times the tolerance.  The floor is taken at
    2048.11 and at 2048, away from any rounding of the arithmetic. *)
Theorem roundtrip_off_by_a_tile :
  MapComponent.screenToLatLng MapComponent.initial (Some sampleRect)
    (400 + 131072 / 2250) 300 = (0, 1 / 100)
  /\ 0 <= 400 + 131072 / 2250 <= MapComponent.Rect.width sampleRect
  /\ MapComponent.latLngToScreen MapComponent.initial (Some sampleRect) 0 (1 / 100)
     = (400, 300)
  /\ MapComponent.screenToLatLng MapComponent.initial (Some sampleRect) 400 300
     = (0, 0)
  /\ Rabs (0 - 1 / 100) > 1 / 1000000.
Proof.
  split; [|split; [|split; [|split]]].
  - unfold MapComponent.screenToLatLng, sampleRect.
    rewrite tileZoom_initial, pow2_12. unfold MapComponent.TILE_SIZE. simpl.
    replace ((400 + 131072 / 2250 - 0 - 800 / 2) / 2 + 0) with (131072 / 4500) by lra.
    replace ((300 - 0 - 600 / 2) / 2 + 0) with 0 by lra.
    replace (0 / 256 + 4096 / 2) with 2048 by lra.
    rewrite tileToLatLng_equator. f_equal. lra.
  - simpl. lra.
  - unfold MapComponent.latLngToScreen, sampleRect.
    rewrite tileZoom_initial, latLngToTile_sample, pow2_12.
    unfold MapComponent.TILE_SIZE. simpl. f_equal; lra.
  - unfold MapComponent.screenToLatLng, sampleRect.
    rewrite tileZoom_initial, pow2_12. unfold MapComponent.TILE_SIZE. simpl.
    replace ((400 - 0 - 800 / 2) / 2 + 0) with 0 by lra.
    replace ((300 - 0 - 600 / 2) / 2 + 0) with 0 by lra.
    replace (0 / 256 + 4096 / 2) with 2048 by lra.
    rewrite tileToLatLng_equator. f_equal. lra.
  - rewrite Rabs_left1 by lra. lra.
Qed.


(** * Further properties *)

(** ** Point in polygon, in any arithmetic *)

Section AnyArithmetic.

Context {T : Type} {ops : Num.Ops T}.

Variables x y : T.

Lemma rayLoop_crossingParity (coords : list (T * T)) (k : nat) :
  forall i j inside,
    (i + k = length coords)%nat ->
    ResultsModal.rayLoop coords x y k i j inside
    = xorb inside
        (crossingParity x y (nth j coords (Num.zero, Num.zero)) (skipn i coords)).
Proof.
  induction k as [|k IH]; intros i j inside Hik.
  - rewrite skipn_all2 by lia. simpl. now rewrite xorb_false_r.
  - rewrite (skipn_nth_cons (Num.zero, Num.zero) coords i) by lia.
    cbn [ResultsModal.rayLoop crossingParity]. rewrite IH by lia.
    generalize (crossingParity x y (nth i coords (Num.zero, Num.zero))
                  (skipn (S i) coords)).
    generalize (ResultsModal.edgeCrosses x y (nth i coords (Num.zero, Num.zero))
                  (nth j coords (Num.zero, Num.zero))).
    intros c r. now destruct c, inside, r.
Qed.

Lemma rayLoop_cycle (coords : list (T * T)) :
  ResultsModal.rayLoop coords x y (length coords) 0 (length coords - 1) false
  = crossingParity x y (last coords (Num.zero, Num.zero)) coords.
Proof.
  rewrite rayLoop_crossingParity by reflexivity.
  rewrite nth_pred_last. reflexivity.
Qed.

Lemma crossingParity_snoc (vs : list (T * T)) :
  forall prev w,
    crossingParity x y prev (vs ++ [w])
    = xorb (crossingParity x y prev vs)
           (ResultsModal.edgeCrosses x y w (last vs prev)).
Proof.
  induction vs as [|v vs IH]; intros prev w.
  - simpl. now rewrite xorb_false_r.
  - change (crossingParity x y prev ((v :: vs) ++ [w]))
      with (xorb (ResultsModal.edgeCrosses x y v prev)
                 (crossingParity x y v (vs ++ [w]))).
    rewrite IH, last_cons_default. simpl. now rewrite xorb_assoc.
Qed.

Lemma edgeCrosses_same_side (vi vj : T * T) :
  Num.gtb (snd vi) y = Num.gtb (snd vj) y ->
  ResultsModal.edgeCrosses x y vi vj = false.
Proof.
  destruct vi as [xi yi], vj as [xj yj]. simpl. intros H.
  unfold ResultsModal.edgeCrosses. rewrite H.
  now destruct (Num.gtb yj y).
Qed.

Lemma crossingParity_same_side (b : bool) (vs : list (T * T)) :
  forall prev,
    Num.gtb (snd prev) y = b ->
    (forall v, In v vs -> Num.gtb (snd v) y = b) ->
    crossingParity x y prev vs = false.
Proof.
  induction vs as [|v vs IH]; intros prev Hp Hall; [reflexivity|].
  simpl. rewrite edgeCrosses_same_side.
  - apply IH; [apply Hall; now left|]. intros u Hu. apply Hall. now right.
  - rewrite Hp. apply Hall. now left.
Qed.

Lemma last_In {A : Type} (l : list A) (d : A) : l <> [] -> In (last l d) l.
Proof.
  induction l as [|a l IH]; [congruence|]. intros _.
  destruct l as [|c l]; [now left|].
  right. apply IH. discriminate.
Qed.

End AnyArithmetic.

(** X1: a point whose y (its longitude times ten) is on the same side of
    the y of every vertex, above all of them or above none, is outside,
    whatever the arithmetic the test runs on; a polygon of no vertex or of
    one vertex holds no point. *)
Theorem insidePolygon_same_side {T : Type} {ops : Num.Ops T}
    (coords : list (T * T)) (lat lng : T) (b : bool) :
  (forall v, In v coords -> Num.gtb (snd v) (Num.mul lng Num.ten) = b) ->
  ResultsModal.insidePolygon coords lat lng = false.
Proof.
  intros Hall. unfold ResultsModal.insidePolygon. rewrite rayLoop_cycle.
  destruct coords as [|a m]; [reflexivity|].
  apply (crossingParity_same_side _ _ b); [|exact Hall].
  apply Hall, last_In. discriminate.
Qed.

Lemma insidePolygon_same_side_east :
  (forall v, In v unitSquare -> Num.gtb (snd v) (Num.mul 5 Num.ten) = false)
  /\ ResultsModal.insidePolygon unitSquare 0.05 5 = false.
Proof.
  assert (H : forall v, In v unitSquare -> Num.gtb (snd v) (Num.mul 5 Num.ten) = false).
  { intros v Hv. real_arith. unfold JS.gtb.
    repeat (destruct Hv as [<-|Hv]; [simpl; decide_R; reflexivity|]).
    destruct Hv. }
  split; [exact H|]. exact (insidePolygon_same_side unitSquare 0.05 5 false H).
Defined.

(** X2: starting the vertex list at another vertex of the same cycle does
    not change the answer of the test, whatever the arithmetic: the same
    edges are tested, each from the same end. *)
Theorem insidePolygon_rotated {T : Type} {ops : Num.Ops T}
    (coords : list (T * T)) (lat lng : T) :
  ResultsModal.insidePolygon (rotated coords) lat lng
  = ResultsModal.insidePolygon coords lat lng.
Proof.
  unfold ResultsModal.insidePolygon. rewrite !rayLoop_cycle.
  destruct coords as [|a m]; [reflexivity|].
  cbn [rotated]. rewrite last_last, crossingParity_snoc.
  rewrite last_cons_default. simpl. apply xorb_comm.
Qed.

(** ** Buckets, labels and per-polygon rows *)

Section Buckets.

Import ResultsModal.

Lemma length_filter_split {A : Type} (f1 f2 f3 g : A -> bool) (l : list A) :
  (forall a, (Nat.b2n (f1 a) + Nat.b2n (f2 a) + Nat.b2n (f3 a) = Nat.b2n (g a))%nat) ->
  (length (filter f1 l) + length (filter f2 l) + length (filter f3 l)
   = length (filter g l))%nat.
Proof.
  intros H. induction l as [|a l IH]; [reflexivity|].
  simpl. specialize (H a).
  destruct (f1 a), (f2 a), (f3 a), (g a); simpl in *; lia.
Qed.

Lemma bucket_cases (v : R) :
  (Nat.b2n (JS.geb v 0 && JS.ltb v 80) + Nat.b2n (JS.geb v 80 && JS.ltb v 90)
   + Nat.b2n (JS.geb v 90 && JS.ltb v 100)
   = Nat.b2n (JS.geb v 0 && JS.ltb v 100))%nat.
Proof.
  unfold JS.geb, JS.ltb.
  destruct (Rge_dec v 0), (Rlt_dec v 80), (Rge_dec v 80), (Rlt_dec v 90),
    (Rge_dec v 90), (Rlt_dec v 100); simpl; try reflexivity; lra.
Qed.

Lemma getValueDistribution_values (dataPoints : list DataPoint.t) :
  dataPoints <> [] ->
  map Slice.value (getValueDistribution dataPoints)
  = [countBetween 0 80 dataPoints; countBetween 80 90 dataPoints;
     countBetween 90 100 dataPoints].
Proof.
  intros Hne. unfold getValueDistribution, calculateStats.
  destruct dataPoints as [|p rest]; [congruence|]. reflexivity.
Qed.

Lemma estado_cases (p : DataPoint.t) :
  let v := moValueOrValue p in
  (String.eqb (estado p) "Bajo" = JS.ltb v 80)
  /\ (String.eqb (estado p) "Medio" = JS.geb v 80 && JS.ltb v 90)
  /\ (String.eqb (estado p) "Alto" = JS.geb v 90).
Proof.
  intros v. unfold estado. fold v. unfold JS.geb, JS.ltb.
  destruct (Rge_dec v 90), (Rge_dec v 80), (Rlt_dec v 80), (Rlt_dec v 90);
    simpl; repeat split; try reflexivity; lra.
Qed.

Lemma length_filter_le_pointwise {A : Type} (f g : A -> bool) (l : list A) :
  (forall a, f a = true -> g a = true) ->
  (length (filter f l) <= length (filter g l))%nat.
Proof.
  intros H. induction l as [|a l IH]; [reflexivity|].
  simpl. specialize (H a).
  destruct (f a), (g a); simpl; try lia; discriminate (H eq_refl).
Qed.

End Buckets.

(** X3: the three counts of the value distribution add up to the number of
    points whose resolved value is at least 0 and less than 100, hence to
    no more than the number of points: a point at 100 or above, or below
    0, is in no bucket, and no point is in two. *)
Theorem getValueDistribution_total (dataPoints : list DataPoint.t) :
  list_sum (map ResultsModal.Slice.value (ResultsModal.getValueDistribution dataPoints))
  = countBetween 0 100 dataPoints
  /\ (countBetween 0 100 dataPoints <= length dataPoints)%nat.
Proof.
  split; [|apply filter_length_le].
  destruct dataPoints as [|p rest] eqn:E; [reflexivity|]. rewrite <- E.
  rewrite getValueDistribution_values by (rewrite E; discriminate).
  cbn [list_sum fold_right]. rewrite Nat.add_0_r, Nat.add_assoc.
  unfold countBetween.
  apply (length_filter_split
           (fun p => JS.geb (ResultsModal.moValueOrValue p) 0
                     && JS.ltb (ResultsModal.moValueOrValue p) 80)
           (fun p => JS.geb (ResultsModal.moValueOrValue p) 80
                     && JS.ltb (ResultsModal.moValueOrValue p) 90)
           (fun p => JS.geb (ResultsModal.moValueOrValue p) 90
                     && JS.ltb (ResultsModal.moValueOrValue p) 100)).
  intros a. apply bucket_cases.
Qed.

(** X4: the label of the detailed table and the bucket of the distribution
    agree on the middle class: the bucket from 80 to 90 counts the points
    labelled Medio.  The other two buckets count no more than the points
    labelled Bajo and Alto, which also take the values below 0 and from 100
    up; every point has one of the three labels. *)
Theorem estado_and_buckets (dataPoints : list DataPoint.t) :
  let labelled s :=
    length (filter (fun p => String.eqb (ResultsModal.estado p) s) dataPoints) in
  countBetween 80 90 dataPoints = labelled "Medio"%string
  /\ (countBetween 0 80 dataPoints <= labelled "Bajo"%string)%nat
  /\ (countBetween 90 100 dataPoints <= labelled "Alto"%string)%nat
  /\ (labelled "Bajo"%string + labelled "Medio"%string + labelled "Alto"%string
      = length dataPoints)%nat.
Proof.
  intros labelled. subst labelled. cbv beta. unfold countBetween.
  split; [|split; [|split]].
  - f_equal. apply filter_ext. intros p.
    now rewrite (proj1 (proj2 (estado_cases p))).
  - apply length_filter_le_pointwise. intros p H.
    rewrite (proj1 (estado_cases p)). now apply andb_prop in H as [_ H].
  - apply length_filter_le_pointwise. intros p H.
    rewrite (proj2 (proj2 (estado_cases p))). now apply andb_prop in H as [H _].
  - transitivity (length (filter (fun _ : DataPoint.t => true) dataPoints)).
    + apply length_filter_split. intros p.
      destruct (estado_cases p) as (-> & -> & ->).
      unfold JS.geb, JS.ltb.
      destruct (Rge_dec (ResultsModal.moValueOrValue p) 90),
        (Rge_dec (ResultsModal.moValueOrValue p) 80),
        (Rlt_dec (ResultsModal.moValueOrValue p) 80),
        (Rlt_dec (ResultsModal.moValueOrValue p) 90); simpl; try reflexivity; lra.
    + clear. induction dataPoints as [|p l IH]; simpl; congruence.
Qed.

(** X5: the per-polygon analysis has one row for each polygon, in order
    and under the polygon's name; a row counts no more points than there
    are, and a polygon that holds no point reports an average and a total
    of 0. *)
Theorem getPolygonAnalysis_rows
    (polygons : list Polygon.t) (dataPoints : list DataPoint.t) :
  map ResultsModal.Analysis.name (ResultsModal.getPolygonAnalysis polygons dataPoints)
  = map Polygon.name polygons
  /\ Forall (fun row =>
               (ResultsModal.Analysis.pointsCount row <= length dataPoints)%nat
               /\ (ResultsModal.Analysis.pointsCount row = 0%nat ->
                   ResultsModal.Analysis.avgValue row = 0
                   /\ ResultsModal.Analysis.totalValue row = 0))
            (ResultsModal.getPolygonAnalysis polygons dataPoints).
Proof.
  unfold ResultsModal.getPolygonAnalysis.
  destruct polygons as [|q rest] eqn:E; [split; [reflexivity|constructor]|].
  rewrite <- E. replace (Nat.eqb (length polygons) 0) with false
    by (rewrite E; reflexivity).
  split; [rewrite map_map; reflexivity|].
  apply Forall_forall. intros row Hrow. apply in_map_iff in Hrow as [polygon [<- _]].
  cbn [ResultsModal.Analysis.pointsCount ResultsModal.Analysis.avgValue
         ResultsModal.Analysis.totalValue].
  split; [apply filter_length_le|]. intros H0.
  apply length_zero_iff_nil in H0. rewrite H0. split; reflexivity.
Qed.

(** X6: on a single point the statistics are its resolved value for the
    sum, the mean, the maximum and the minimum, a deviation of 0 and a
    count of 1. *)
Theorem calculateStats_single (p : DataPoint.t) :
  ResultsModal.calculateStats [p]
  = Some (ResultsModal.Stats.mk
            (ResultsModal.moValueOrValue p) (ResultsModal.moValueOrValue p)
            (ResultsModal.moValueOrValue p) (ResultsModal.moValueOrValue p) 0 1).
Proof.
  unfold ResultsModal.calculateStats. simpl.
  set (v := ResultsModal.moValueOrValue p).
  replace (0 + v) with v by lra. replace (v / 1) with v by lra.
  replace ((0 + (v - v) * ((v - v) * 1)) / 1) with 0 by lra.
  now rewrite sqrt_0.
Qed.


(** ** What holds after any sequence of events *)

Section Reachable.

Variable parseFloat : string -> option R.

Lemma run_invariant (P : App.State * MapComponent.State -> Prop) :
  (forall e w, P w -> P (step parseFloat e w)) ->
  forall es w, P w -> P (run parseFloat es w).
Proof.
  intros Hstep es. unfold run.
  induction es as [|e es IH]; intros w Hw; [exact Hw|].
  simpl. apply IH, Hstep, Hw.
Qed.

Lemma dispatch_store (mapRef : option MapComponent.Rect.t) (now : N)
    (a : MapComponent.Action) (app : App.State) (s : MapComponent.State) :
  fst (App.dispatch parseFloat mapRef now a (app, s))
  = match a with
    | MapComponent.FinishButton => fst (App.finishPolygon now (app, s))
    | MapComponent.DialogSave => fst (App.handleSavePoint parseFloat now (app, s))
    | _ => app
    end.
Proof. destruct a; reflexivity. Qed.

Lemma zoomIn_bounds (z : R) : 0.1 <= z <= 20 -> 0.1 <= Rmin (z * 1.5) 20 <= 20.
Proof. intros H. unfold Rmin. destruct (Rle_dec (z * 1.5) 20); lra. Qed.

Lemma zoomOut_bounds (z : R) : 0.1 <= z <= 20 -> 0.1 <= Rmax (z / 1.5) 0.1 <= 20.
Proof. intros H. unfold Rmax. destruct (Rle_dec (z / 1.5) 0.1); lra. Qed.

Lemma handleSavePoint_session (now : N) (app : App.State) (s : MapComponent.State) :
  sessionInvariant s ->
  sessionInvariant (snd (App.handleSavePoint parseFloat now (app, s))).
Proof.
  intros H. unfold App.handleSavePoint, MapComponent.handleSavePoint.
  destruct (MapComponent.pendingPoint s); [|exact H].
  destruct (MapComponent.pointName s); [exact H|].
  destruct (MapComponent.pointMOValue s); [exact H|].
  destruct H as (Hz & Hx & Hv). unfold sessionInvariant. simpl.
  split; [exact Hz|]. split; [apply andb_false_r|exact Hv].
Qed.

Lemma dispatch_session (mapRef : option MapComponent.Rect.t) (now : N)
    (a : MapComponent.Action) (app : App.State) (s : MapComponent.State) :
  sessionInvariant s ->
  sessionInvariant (snd (App.dispatch parseFloat mapRef now a (app, s))).
Proof.
  intros H. pose proof H as (Hz & Hx & Hv).
  destruct a; cbn [App.dispatch MapComponent.dispatch snd].
  - destruct (MapComponent.isDrawingPolygon s);
      unfold sessionInvariant; simpl; auto.
  - destruct (MapComponent.isAddingPoint s);
      unfold sessionInvariant; simpl; auto.
  - unfold sessionInvariant. simpl. auto.
  - unfold sessionInvariant. simpl. auto using zoomIn_bounds.
  - unfold sessionInvariant. simpl. auto using zoomOut_bounds.
  - unfold MapComponent.handleMapClick.
    destruct (MapComponent.isDragging s); [exact H|].
    destruct (MapComponent.isDrawingPolygon s) eqn:Ed.
    + unfold sessionInvariant. simpl. rewrite Ed. repeat split; auto; try apply Hz.
      discriminate.
    + destruct (MapComponent.isAddingPoint s) eqn:Ea; [|exact H].
      unfold sessionInvariant. simpl. rewrite Ed, Ea. auto.
  - unfold MapComponent.handleMouseDown.
    destruct (MapComponent.isDrawingPolygon s || MapComponent.isAddingPoint s);
      [exact H|]. unfold sessionInvariant. simpl. auto.
  - unfold MapComponent.handleMouseMove.
    destruct (negb (MapComponent.isDragging s) || MapComponent.isDrawingPolygon s
              || MapComponent.isAddingPoint s); [exact H|].
    unfold sessionInvariant. simpl. auto.
  - unfold sessionInvariant. simpl. auto.
  - unfold sessionInvariant. simpl. auto.
  - unfold sessionInvariant. simpl. auto.
  - unfold sessionInvariant. simpl. auto.
  - unfold sessionInvariant. simpl. auto.
  - fold (App.handleSavePoint parseFloat now (app, s)).
    now apply handleSavePoint_session.
  - unfold sessionInvariant. simpl. auto.
Qed.

Lemma step_session (e : Event) (w : App.State * MapComponent.State) :
  sessionInvariant (snd w) -> sessionInvariant (snd (step parseFloat e w)).
Proof.
  intros H. destruct w as [app s]. destruct e as [mapRef now a|random data]; simpl.
  - destruct (MapComponent.available a s); [|exact H].
    now apply dispatch_session.
  - exact H.
Qed.

Lemma finishPolygon_polygons (now : N) (app : App.State) (s : MapComponent.State) :
  polygonsInvariant (App.polygons app) ->
  polygonsInvariant (App.polygons (fst (App.finishPolygon now (app, s)))).
Proof.
  intros [Hlen Hname]. unfold App.finishPolygon, MapComponent.finishPolygon.
  destruct (Nat.leb 3 (length (MapComponent.currentPolygonPoints s))) eqn:E;
    [|split; assumption].
  apply Nat.leb_le in E.
  cbn [fst App.handleAddPolygon App.polygons App.setPolygons]. split.
  - apply Forall_app. split; [exact Hlen|]. constructor; [exact E|constructor].
  - intros i q Hq.
    destruct (Nat.lt_ge_cases i (length (App.polygons app))) as [Hi|Hi].
    + rewrite nth_error_app1 in Hq by exact Hi. now apply Hname.
    + rewrite nth_error_app2 in Hq by exact Hi.
      destruct (i - length (App.polygons app))%nat as [|k] eqn:Ek.
      * injection Hq as <-. simpl.
        replace i with (length (App.polygons app)) by lia. reflexivity.
      * destruct k; discriminate.
Qed.

Lemma step_polygons (e : Event) (w : App.State * MapComponent.State) :
  polygonsInvariant (App.polygons (fst w)) ->
  polygonsInvariant (App.polygons (fst (step parseFloat e w))).
Proof.
  intros H. destruct w as [app s]. destruct e as [mapRef now a|random data]; cbn [step snd fst].
  - destruct (MapComponent.available a s); [|exact H].
    rewrite dispatch_store. destruct a; try exact H.
    + now apply finishPolygon_polygons.
    + destruct (handleSavePoint_store parseFloat now app s) as [added [_ Hp]].
      rewrite Hp. exact H.
  - exact H.
Qed.

Lemma step_coherent (e : Event) (w : App.State * MapComponent.State) :
  Forall coherent (App.dataPoints (fst w)) ->
  Forall coherent (App.dataPoints (fst (step parseFloat e w))).
Proof.
  intros H. destruct w as [app s]. destruct e as [mapRef now a|random data]; cbn [step snd fst].
  - destruct (MapComponent.available a s); [|exact H].
    rewrite dispatch_store. destruct a; try exact H.
    + destruct (finishPolygon_store now app s) as [added [_ Hp]].
      rewrite Hp. exact H.
    + now apply handleSavePoint_coherent.
  - apply handleExcelDataLoad_coherent.
Qed.

End Reachable.

(** X7: after any sequence of events from the initial state, the zoom
    factor is between 0.1 and 20 (so no pan or projection divides by
    zero), the polygon mode and the point mode are not on together, and
    vertices are in progress only in the polygon mode. *)
Theorem session_invariant (parseFloat : string -> option R) (es : list Event) :
  sessionInvariant (snd (run parseFloat es start)).
Proof.
  apply (run_invariant parseFloat (fun w => sessionInvariant (snd w))).
  - apply step_session.
  - unfold sessionInvariant, start. simpl. repeat split; try lra; reflexivity.
Qed.

(** X8: after any sequence of events from the initial state, every polygon
    of the store has three vertices at least and the polygon at position i
    (from 0) is named with the number i + 1: polygons are only made by the
    finish action and never removed or renamed. *)
Theorem polygons_invariant (parseFloat : string -> option R) (es : list Event) :
  polygonsInvariant (App.polygons (fst (run parseFloat es start))).
Proof.
  apply (run_invariant parseFloat
           (fun w => polygonsInvariant (App.polygons (fst w)))).
  - apply step_polygons.
  - split; [constructor|]. intros [|i] q H; discriminate.
Qed.

(** X9: after any sequence of events from the initial state (uploads
    included), every point of the store resolves to the same value under
    [p.moValue || p.value] as under [p.moValue ?? p.value]: the import
    sets no derived value and the naming dialog sets it equal to the raw
    value. *)
Theorem points_resolve_alike (parseFloat : string -> option R) (es : list Event) :
  Forall (fun p => ResultsModal.moValueOrValue p
                   = JS.nullish (DataPoint.moValue p) (DataPoint.value p))
         (App.dataPoints (fst (run parseFloat es start))).
Proof.
  apply (Forall_impl _ coherent_nullish).
  apply (run_invariant parseFloat
           (fun w => Forall coherent (App.dataPoints (fst w)))).
  - apply step_coherent.
  - constructor.
Qed.


(** ** Sessions from start to end *)

Section Sessions.

Import MapComponent.

Lemma screenToLatLng_view (s s' : State) (mapRef : option Rect.t) (x y : R) :
  zoom s' = zoom s -> mapCenter s' = mapCenter s ->
  screenToLatLng s' mapRef x y = screenToLatLng s mapRef x y.
Proof. intros Hz Hc. unfold screenToLatLng. now rewrite Hz, Hc. Qed.

Lemma clickAll_drawing (mapRef : option Rect.t) (clicks : list (R * R)) :
  forall s,
    isDragging s = false -> isDrawingPolygon s = true ->
    clickAll mapRef clicks s
    = setCurrentPolygonPoints
        (currentPolygonPoints s
         ++ map (fun c => screenToLatLng s mapRef (fst c) (snd c)) clicks) s.
Proof.
  induction clicks as [|c clicks IH]; intros s Hg Hd.
  - simpl. rewrite app_nil_r. now destruct s.
  - assert (E : handleMapClick mapRef (fst c) (snd c) s
                = setCurrentPolygonPoints
                    (currentPolygonPoints s ++ [screenToLatLng s mapRef (fst c) (snd c)])
                    s)
      by (unfold handleMapClick; now rewrite Hg, Hd).
    change (clickAll mapRef (c :: clicks) s)
      with (clickAll mapRef clicks (handleMapClick mapRef (fst c) (snd c) s)).
    rewrite E, IH by assumption.
    cbn [currentPolygonPoints setCurrentPolygonPoints map].
    rewrite <- app_assoc. cbn [app].
    rewrite (map_ext _ (fun c0 => screenToLatLng s mapRef (fst c0) (snd c0)))
      by (intros; now apply screenToLatLng_view).
    reflexivity.
Qed.

End Sessions.

(** X10: a polygon session of three clicks or more, closed by the finish
    action, adds one polygon to the store: its vertices are the geographic
    positions of the clicks, in the order of the clicks, and its name
    carries the number of polygons then in the store; the points of the
    store are untouched and the session is left with no mode and no vertex. *)
Theorem polygon_session (mapRef : option MapComponent.Rect.t) (now : N)
    (clicks : list (R * R)) (app : App.State) (s : MapComponent.State) :
  MapComponent.isDragging s = false ->
  (3 <= length clicks)%nat ->
  let drawn := clickAll mapRef clicks (MapComponent.startDrawingPolygon s) in
  let after := App.finishPolygon now (app, drawn) in
  App.polygons (fst after)
  = App.polygons app
    ++ [Polygon.mk ("polygon-" ++ JS.showN now)
          (map (fun c => MapComponent.screenToLatLng s mapRef (fst c) (snd c)) clicks)
          ("Polígono " ++ JS.showNat (length (App.polygons app) + 1))]
  /\ App.dataPoints (fst after) = App.dataPoints app
  /\ mode (snd after) = Idle
  /\ MapComponent.currentPolygonPoints (snd after) = [].
Proof.
  intros Hg Hlen drawn after. subst after drawn.
  rewrite clickAll_drawing by (simpl; auto).
  unfold App.finishPolygon, MapComponent.finishPolygon.
  cbn [MapComponent.currentPolygonPoints MapComponent.setCurrentPolygonPoints
         MapComponent.startDrawingPolygon List.app].
  rewrite length_map. replace (Nat.leb 3 (length clicks)) with true
    by (symmetry; now apply Nat.leb_le).
  cbn [fst snd App.handleAddPolygon App.polygons App.setPolygons App.dataPoints].
  repeat split.
Qed.

Lemma polygon_session_threeClicks :
  MapComponent.isDragging MapComponent.initial = false
  /\ (3 <= length threeClicks)%nat
  /\ length (App.polygons
               (fst (App.finishPolygon 1700000000000%N
                       (App.initial,
                        clickAll (Some sampleRect) threeClicks
                          (MapComponent.startDrawingPolygon MapComponent.initial)))))
     = 1%nat.
Proof.
  assert (Hg : MapComponent.isDragging MapComponent.initial = false) by reflexivity.
  assert (Hl : (3 <= length threeClicks)%nat) by (simpl; lia).
  split; [exact Hg|]. split; [exact Hl|].
  now rewrite (proj1 (polygon_session (Some sampleRect) 1700000000000%N threeClicks
                        App.initial MapComponent.initial Hg Hl)).
Defined.

(** X11: a point session (the mode is entered, the map is clicked, a name
    and a value are typed, the point is saved) adds one point to the store,
    at the geographic position of the click, under the typed name; its raw
    and its derived value are both the number read from the typed value,
    or 0 when it reads as no number.  The session is Idle afterwards, the
    dialog closed and no pending coordinate left. *)
Theorem point_session (parseFloat : string -> option R)
    (mapRef : option MapComponent.Rect.t) (now : N) (x y : R) (name value : string)
    (app : App.State) (s : MapComponent.State) :
  MapComponent.isDragging s = false ->
  name <> ""%string -> value <> ""%string ->
  let v := JS.nullish (parseFloat value) 0 in
  let position := MapComponent.screenToLatLng s mapRef x y in
  let after :=
    App.handleSavePoint parseFloat now (app, typedPoint mapRef x y name value s) in
  App.dataPoints (fst after)
  = App.dataPoints app
    ++ [DataPoint.mk ("manual-point-" ++ JS.showN now)
          (fst position) (snd position) name v (Some v)]
  /\ App.polygons (fst after) = App.polygons app
  /\ mode (snd after) = Idle
  /\ MapComponent.pendingPoint (snd after) = None
  /\ MapComponent.showPointModal (snd after) = false.
Proof.
  intros Hg Hname Hvalue v position after. subst after.
  assert (Hv : JS.orNum (parseFloat value) 0 = v).
  { subst v. unfold JS.orNum, JS.or, JS.truthy, JS.neqb, JS.nullish.
    destruct (parseFloat value) as [r|]; [|reflexivity].
    destruct (Req_dec_T r 0) as [->|]; reflexivity. }
  unfold typedPoint, App.handleSavePoint, MapComponent.handleSavePoint,
    MapComponent.handleMapClick.
  cbn [MapComponent.startAddingPoint MapComponent.isDragging
         MapComponent.isDrawingPolygon MapComponent.isAddingPoint
         MapComponent.setCurrentPolygonPoints MapComponent.setDrawing
         MapComponent.setAdding].
  rewrite Hg.
  cbn [MapComponent.pendingPoint MapComponent.pointName MapComponent.pointMOValue
         MapComponent.setPointMOValue MapComponent.setPointName
         MapComponent.setShowPointModal MapComponent.setPendingPoint].
  destruct name as [|c name]; [congruence|].
  destruct value as [|d value]; [congruence|].
  rewrite Hv.
  cbn [fst snd App.handleAddPoint App.dataPoints App.setDataPoints App.polygons].
  repeat split.
Qed.

Lemma point_session_notANumber :
  MapComponent.isDragging MapComponent.initial = false
  /\ "Punto A"%string <> ""%string
  /\ "abc"%string <> ""%string
  /\ map DataPoint.value
       (App.dataPoints
          (fst (App.handleSavePoint notANumber 1700000000000%N
                  (App.initial,
                   typedPoint (Some sampleRect) 400 300 "Punto A" "abc"
                     MapComponent.initial))))
     = [0].
Proof.
  assert (Hg : MapComponent.isDragging MapComponent.initial = false) by reflexivity.
  assert (Hn : "Punto A"%string <> ""%string) by discriminate.
  assert (Hv : "abc"%string <> ""%string) by discriminate.
  split; [exact Hg|]. split; [exact Hn|]. split; [exact Hv|].
  now rewrite (proj1 (point_session notANumber (Some sampleRect) 1700000000000%N
                        400 300 "Punto A" "abc" App.initial MapComponent.initial
                        Hg Hn Hv)).
Defined.

(** ** Pan, zoom and the projection *)

Section View.

Import MapComponent.

Lemma pow2_pos (z : Z) : 0 < pow2 z.
Proof. unfold pow2. apply powerRZ_lt. lra. Qed.


Lemma pow2_IZR (z : Z) : (0 <= z)%Z -> pow2 z = IZR (2 ^ z).
Proof.
  intros Hz. unfold pow2. rewrite <- (Z2Nat.id z Hz) at 1.
  rewrite <- pow_powerRZ, pow_IZR. now rewrite Z2Nat.id.
Qed.


Lemma sinh_le (a b : R) : a <= b -> sinh a <= sinh b.
Proof. intros [H| ->]; [left; now apply sinh_lt|right; reflexivity]. Qed.

Lemma atan_le (a b : R) : a <= b -> atan a <= atan b.
Proof. intros [H| ->]; [left; now apply atan_increasing|right; reflexivity]. Qed.

End View.

(** X12: while the map is dragged, the geographic position under the
    pointer does not change: after a move to (x, y) the position under
    (x, y) is the one that was under the last pointer position. *)
Theorem drag_keeps_position (mapRef : option MapComponent.Rect.t) (x y : R)
    (s : MapComponent.State) :
  MapComponent.zoom s <> 0 ->
  MapComponent.isDragging s = true ->
  MapComponent.isDrawingPolygon s = false ->
  MapComponent.isAddingPoint s = false ->
  MapComponent.screenToLatLng (MapComponent.handleMouseMove x y s) mapRef x y
  = MapComponent.screenToLatLng s mapRef
      (fst (MapComponent.lastMousePos s)) (snd (MapComponent.lastMousePos s))
  /\ MapComponent.lastMousePos (MapComponent.handleMouseMove x y s) = (x, y).
Proof.
  intros Hz Hg Hd Ha. unfold MapComponent.handleMouseMove. rewrite Hg, Hd, Ha.
  cbn [negb orb]. split; [|reflexivity].
  unfold MapComponent.screenToLatLng. destruct mapRef as [rect|]; [|reflexivity].
  cbn [MapComponent.zoom MapComponent.mapCenter MapComponent.setLastMousePos
         MapComponent.setMapCenter fst snd].
  f_equal; f_equal; field; repeat split; try exact Hz;
    unfold MapComponent.TILE_SIZE; lra.
Qed.

Lemma drag_keeps_position_initial :
  let s := MapComponent.handleMouseDown 100 100 MapComponent.initial in
  MapComponent.zoom s <> 0
  /\ MapComponent.isDragging s = true
  /\ MapComponent.screenToLatLng (MapComponent.handleMouseMove 160 130 s)
       (Some sampleRect) 160 130
     = MapComponent.screenToLatLng s (Some sampleRect) 100 100.
Proof.
  intros s.
  assert (Hz : MapComponent.zoom s <> 0) by (simpl; lra).
  split; [exact Hz|]. split; [reflexivity|].
  exact (proj1 (drag_keeps_position (Some sampleRect) 160 130 s Hz
                  eq_refl eq_refl eq_refl)).
Defined.



(** X14: a geographic position sent to the screen and back (the screen
    position taken from the corner of the map element to the client area)
    comes back as the north-west corner of its tile: the longitude is not
    greater than the original and less than one tile width, 360 / 2^tileZ,
    below it, and the latitude is not less than the original. *)
Theorem roundtrip_north_west (rect : MapComponent.Rect.t) (lat lng : R)
    (s : MapComponent.State) :
  MapComponent.zoom s <> 0 ->
  -90 < lat < 90 ->
  let screen := MapComponent.latLngToScreen s (Some rect) lat lng in
  let back :=
    MapComponent.screenToLatLng s (Some rect)
      (MapComponent.Rect.left rect + fst screen)
      (MapComponent.Rect.top rect + snd screen) in
  let n := MapComponent.pow2 (MapComponent.tileZoom (MapComponent.zoom s)) in
  snd back <= lng < snd back + 360 / n
  /\ lat <= fst back.
Proof.
  intros Hz Hlat screen back n.
  pose proof (pow2_pos (MapComponent.tileZoom (MapComponent.zoom s))) as Hn.
  fold n in Hn.
  set (tx := (lng + 180) / 360 * n).
  set (ty := (1 - arcsinh (tan (lat * PI / 180)) / PI) / 2 * n).
  assert (Hback : back
                  = MapComponent.tileToLatLng (IZR (Zfloor tx)) (IZR (Zfloor ty))
                      (MapComponent.tileZoom (MapComponent.zoom s))).
  { subst back screen. unfold MapComponent.screenToLatLng, MapComponent.latLngToScreen,
      MapComponent.latLngToTile.
    cbn [fst snd MapComponent.Tile.x MapComponent.Tile.y]. fold n. fold tx. fold ty.
    unfold MapComponent.TILE_SIZE.
    f_equal; field; lra. }
  rewrite Hback. unfold MapComponent.tileToLatLng. cbn [fst snd]. fold n.
  pose proof (Zfloor_bound tx) as [Hx1 Hx2].
  pose proof (Zfloor_bound ty) as [Hy1 _].
  pose proof PI_RGT_0 as Hpi.
  split.
  - assert (Hlng : lng = tx * / n * 360 - 180) by (subst tx; field; lra).
    assert (Hi : 0 < / n) by (apply Rinv_0_lt_compat; lra).
    assert (P1 : 0 <= (tx - IZR (Zfloor tx)) * / n)
      by (apply Rmult_le_pos; lra).
    assert (P2 : 0 < (IZR (Zfloor tx) + 1 - tx) * / n)
      by (apply Rmult_lt_0_compat; lra).
    rewrite Hlng. unfold Rdiv. clearbody tx. lra.
  - set (u := arcsinh (tan (lat * PI / 180))).
    assert (Hu : u = PI * (1 - 2 * ty / n)) by (subst ty; fold u; field; lra).
    assert (Hle : u <= PI * (1 - 2 * IZR (Zfloor ty) / n)).
    { rewrite Hu. apply Rmult_le_compat_l; [lra|].
      apply Rplus_le_compat_l, Ropp_le_contravar.
      unfold Rdiv. apply Rmult_le_compat_r; [left; now apply Rinv_0_lt_compat|lra]. }
    apply sinh_le, atan_le in Hle.
    unfold u in Hle at 1. rewrite sinh_arcsinh in Hle.
    rewrite atan_tan in Hle.
    + apply (Rmult_le_compat_r (180 / PI)) in Hle;
        [|left; apply Rdiv_lt_0_compat; lra].
      replace (lat * PI / 180 * (180 / PI)) with lat in Hle by (field; lra).
      unfold Rdiv in Hle |- *. rewrite <- Rmult_assoc in Hle. exact Hle.
    + split.
      * apply Rmult_lt_reg_r with (180 / PI); [apply Rdiv_lt_0_compat; lra|].
        replace (- (PI / 2) * (180 / PI)) with (-90) by (field; lra).
        replace (lat * PI / 180 * (180 / PI)) with lat by (field; lra). lra.
      * apply Rmult_lt_reg_r with (180 / PI); [apply Rdiv_lt_0_compat; lra|].
        replace (PI / 2 * (180 / PI)) with 90 by (field; lra).
        replace (lat * PI / 180 * (180 / PI)) with lat by (field; lra). lra.
Qed.

Lemma roundtrip_north_west_sample :
  MapComponent.zoom MapComponent.initial <> 0
  /\ -90 < 0 < 90
  /\ snd (MapComponent.screenToLatLng MapComponent.initial (Some sampleRect)
            (MapComponent.Rect.left sampleRect
             + fst (MapComponent.latLngToScreen MapComponent.initial
                      (Some sampleRect) 0 (1 / 100)))
            (MapComponent.Rect.top sampleRect
             + snd (MapComponent.latLngToScreen MapComponent.initial
                      (Some sampleRect) 0 (1 / 100))))
     <= 1 / 100.
Proof.
  assert (Hz : MapComponent.zoom MapComponent.initial <> 0) by (simpl; lra).
  assert (Hl : -90 < 0 < 90) by lra.
  split; [exact Hz|]. split; [exact Hl|].
  exact (proj1 (proj1 (roundtrip_north_west sampleRect 0 (1 / 100)
                         MapComponent.initial Hz Hl))).
Defined.

(** ** The tiles that drawMap fetches *)

Section Tiles.

Import MapComponent.

Lemma loopRange_from (start : Z) (n i : nat) :
  NoDup (map (fun k => (start + Z.of_nat k)%Z) (seq i n)).
Proof.
  revert i. induction n as [|n IH]; intros i; simpl; constructor.
  - intros Hin. apply in_map_iff in Hin as [k [Hk Hin]].
    apply in_seq in Hin. lia.
  - apply IH.
Qed.

Lemma loopRange_NoDup (start count : Z) : NoDup (loopRange start count).
Proof. apply loopRange_from. Qed.

Lemma length_loopRange (start count : Z) :
  length (loopRange start count) = Z.to_nat count.
Proof. unfold loopRange. now rewrite length_map, length_seq. Qed.

(** The pairs that a guarded double loop keeps. *)
Lemma in_row (f : Z -> Z -> bool) (tx : Z) (ys : list Z) (t : Z * Z) :
  In t (flat_map (fun ty => if f tx ty then [(tx, ty)] else []) ys)
  <-> fst t = tx /\ In (snd t) ys /\ f tx (snd t) = true.
Proof.
  rewrite in_flat_map. split.
  - intros [ty [Hy Hin]]. destruct (f tx ty) eqn:E; [|destruct Hin].
    destruct Hin as [<-|[]]. simpl. auto.
  - intros (Hx & Hy & Hf). exists (snd t). split; [exact Hy|].
    rewrite Hf. left. destruct t; simpl in *. now subst.
Qed.

Lemma row_NoDup (f : Z -> Z -> bool) (tx : Z) (ys : list Z) :
  NoDup ys -> NoDup (flat_map (fun ty => if f tx ty then [(tx, ty)] else []) ys).
Proof.
  induction 1 as [|ty ys Hnot Hnd IH]; simpl; [constructor|].
  destruct (f tx ty); [|exact IH].
  simpl. constructor; [|exact IH].
  intros Hin. apply in_row in Hin as (_ & Hin & _). contradiction.
Qed.

Lemma rows_NoDup (f : Z -> Z -> bool) (xs ys : list Z) :
  NoDup xs -> NoDup ys ->
  NoDup (flat_map (fun tx =>
                     flat_map (fun ty => if f tx ty then [(tx, ty)] else []) ys) xs).
Proof.
  intros Hx Hy. induction Hx as [|tx xs Hnot Hnd IH]; simpl; [constructor|].
  apply NoDup_app; [now apply row_NoDup|exact IH|].
  intros t Hin Hin'. apply in_row in Hin as (Ht & _).
  apply in_flat_map in Hin' as [tx' [Hx' Hin']].
  apply in_row in Hin' as (Ht' & _). congruence.
Qed.

Lemma length_row (f : Z -> Z -> bool) (tx : Z) (ys : list Z) :
  (length (flat_map (fun ty => if f tx ty then [(tx, ty)] else []) ys)
   <= length ys)%nat.
Proof.
  induction ys as [|ty ys IH]; simpl; [lia|].
  rewrite length_app. destruct (f tx ty); simpl; lia.
Qed.

Lemma length_rows (f : Z -> Z -> bool) (xs ys : list Z) :
  (length (flat_map (fun tx =>
                       flat_map (fun ty => if f tx ty then [(tx, ty)] else []) ys) xs)
   <= length xs * length ys)%nat.
Proof.
  induction xs as [|tx xs IH]; simpl; [lia|].
  rewrite length_app. pose proof (length_row f tx ys). lia.
Qed.

Lemma drawTileZoom_bounds (z : R) : (1 <= drawTileZoom z <= 18)%Z.
Proof. unfold drawTileZoom. lia. Qed.

Lemma tileInRange_bounds (tileZ tx ty : Z) :
  (0 <= tileZ)%Z ->
  tileInRange (pow2 tileZ) tx ty = true ->
  (0 <= tx < 2 ^ tileZ)%Z /\ (0 <= ty < 2 ^ tileZ)%Z.
Proof.
  intros Hz. rewrite (pow2_IZR tileZ Hz). unfold tileInRange, JS.geb, JS.ltb.
  destruct (Rge_dec (IZR tx) 0) as [H1|]; [|discriminate].
  destruct (Rge_dec (IZR ty) 0) as [H2|]; [|discriminate].
  destruct (Rlt_dec (IZR tx) (IZR (2 ^ tileZ))) as [H3|]; [|discriminate].
  destruct (Rlt_dec (IZR ty) (IZR (2 ^ tileZ))) as [H4|]; [|discriminate].
  intros _. apply Rge_le in H1, H2. apply le_IZR in H1, H2.
  apply lt_IZR in H3, H4. lia.
Qed.

End Tiles.

(** X16: whatever the zoom, the pan and the size of the canvas, the tile
    zoom level of [drawMap] is between 1 and 18, every tile it fetches has
    its column and its row at least 0 and less than 2^tileZ, no tile is
    fetched twice in one pass, and there are no more fetches than the
    tilesX * tilesY cells of the grid. *)
Theorem requestedTiles_valid (s : MapComponent.State) (width height : R) :
  let g := MapComponent.drawGrid s width height in
  (1 <= MapComponent.Grid.tileZ g <= 18)%Z
  /\ Forall (fun t => (0 <= fst t < 2 ^ MapComponent.Grid.tileZ g)%Z
                      /\ (0 <= snd t < 2 ^ MapComponent.Grid.tileZ g)%Z)
            (MapComponent.requestedTiles s width height)
  /\ NoDup (MapComponent.requestedTiles s width height)
  /\ (length (MapComponent.requestedTiles s width height)
      <= Z.to_nat (MapComponent.Grid.tilesX g) * Z.to_nat (MapComponent.Grid.tilesY g))%nat.
Proof.
  intros g. pose proof (drawTileZoom_bounds (MapComponent.zoom s)) as Hz.
  split; [exact Hz|]. unfold MapComponent.requestedTiles. fold g.
  split; [|split].
  - apply Forall_forall. intros t Hin.
    apply in_flat_map in Hin as [tx [_ Hin]].
    apply (in_row (MapComponent.tileInRange (MapComponent.Grid.scale g))) in Hin
      as (Hx & _ & Hf).
    rewrite <- Hx in Hf. apply tileInRange_bounds in Hf; [exact Hf|].
    cbn [g MapComponent.drawGrid MapComponent.Grid.tileZ]. lia.
  - apply (rows_NoDup (MapComponent.tileInRange (MapComponent.Grid.scale g)));
      apply loopRange_NoDup.
  - rewrite <- !length_loopRange with
      (start := MapComponent.Grid.startTileX g) (count := MapComponent.Grid.tilesX g).
    rewrite <- (length_loopRange (MapComponent.Grid.startTileY g)
                  (MapComponent.Grid.tilesY g)).
    apply (length_rows (MapComponent.tileInRange (MapComponent.Grid.scale g))).
Qed.

(** X17: for a zoom factor above 0 and a canvas of width and height at
    least 0, the grid of [drawMap] covers the canvas: its first column
    starts at or left of the left edge, the column after its last starts
    at or right of the right edge, each column starts where the one before
    ends, and the same holds of the rows. *)
Theorem drawGrid_covers (s : MapComponent.State) (width height : R) :
  0 < MapComponent.zoom s -> 0 <= width -> 0 <= height ->
  let g := MapComponent.drawGrid s width height in
  MapComponent.tileScreenX s width (MapComponent.Grid.startTileX g) <= 0
  /\ width <= MapComponent.tileScreenX s width
               (MapComponent.Grid.startTileX g + MapComponent.Grid.tilesX g)
  /\ MapComponent.tileScreenY s height (MapComponent.Grid.startTileY g) <= 0
  /\ height <= MapComponent.tileScreenY s height
                 (MapComponent.Grid.startTileY g + MapComponent.Grid.tilesY g)
  /\ (forall tx, MapComponent.tileScreenX s width (tx + 1)
                 = MapComponent.tileScreenX s width tx + MapComponent.tileScreenSize s)
  /\ (forall ty, MapComponent.tileScreenY s height (ty + 1)
                 = MapComponent.tileScreenY s height ty + MapComponent.tileScreenSize s).
Proof.
  intros Hz Hw Hh g.
  assert (cover : forall (c extent : R),
    0 <= extent ->
    let tiles := (Zceil (extent / (256 * MapComponent.zoom s)) + 2)%Z in
    let first := Zfloor (c - IZR tiles / 2) in
    (IZR first - c) * 256 * MapComponent.zoom s + extent / 2 <= 0
    /\ extent <= (IZR (first + tiles) - c) * 256 * MapComponent.zoom s + extent / 2).
  { intros c extent He tiles first.
    set (zm := MapComponent.zoom s) in *.
    set (q := extent / (256 * zm)).
    assert (Hq : extent = q * 256 * zm) by (subst q; field; lra).
    pose proof (Zceil_bound q) as [_ Hc].
    pose proof (Zfloor_bound (c - IZR tiles / 2)) as [Hf1 Hf2]. fold first in Hf1, Hf2.
    assert (Ht : IZR tiles = IZR (Zceil q) + 2) by (subst tiles; fold q; now rewrite plus_IZR).
    rewrite plus_IZR.
    assert (A : (IZR first - c) * zm <= - (q / 2 + 1) * zm)
      by (apply Rmult_le_compat_r; lra).
    assert (B : (q / 2) * zm <= (IZR first + IZR tiles - c) * zm)
      by (apply Rmult_le_compat_r; lra).
    rewrite Hq. clearbody q first tiles. split; lra. }
  unfold MapComponent.tileScreenX, MapComponent.tileScreenY, MapComponent.tileScreenSize,
    MapComponent.TILE_SIZE.
  cbn [g MapComponent.drawGrid MapComponent.Grid.startTileX MapComponent.Grid.startTileY
         MapComponent.Grid.tilesX MapComponent.Grid.tilesY].
  unfold MapComponent.TILE_SIZE.
  set (scale := MapComponent.pow2 (MapComponent.drawTileZoom (MapComponent.zoom s))).
  destruct (cover (scale / 2 + fst (MapComponent.mapCenter s) / 256) width Hw) as [X1 X2].
  destruct (cover (scale / 2 + snd (MapComponent.mapCenter s) / 256) height Hh) as [Y1 Y2].
  cbv zeta in X1, X2, Y1, Y2.
  repeat split.
  - etransitivity; [|exact X1]. right. field.
  - etransitivity; [exact X2|]. right. field.
  - etransitivity; [|exact Y1]. right. field.
  - etransitivity; [exact Y2|]. right. field.
  - intros tx. rewrite plus_IZR. field.
  - intros ty. rewrite plus_IZR. field.
Qed.

Lemma drawGrid_covers_initial :
  0 < MapComponent.zoom MapComponent.initial /\ 0 <= 800 /\ 0 <= 600
  /\ MapComponent.tileScreenX MapComponent.initial 800
       (MapComponent.Grid.startTileX (MapComponent.drawGrid MapComponent.initial 800 600))
     <= 0.
Proof.
  assert (Hz : 0 < MapComponent.zoom MapComponent.initial) by (simpl; lra).
  assert (Hw : 0 <= 800) by lra.
  assert (Hh : 0 <= 600) by lra.
  split; [exact Hz|]. split; [exact Hw|]. split; [exact Hh|].
  exact (proj1 (drawGrid_covers MapComponent.initial 800 600 Hz Hw Hh)).
Defined.

(** ** The address of a tile image *)

Section Url.

Open Scope string_scope.

Lemma append_nil_r (a : string) : a ++ "" = a.
Proof. induction a as [|x a IH]; simpl; [reflexivity|now rewrite IH]. Qed.

Lemma substring_all (s : string) : substring 0 (String.length s) s = s.
Proof. induction s as [|c s IH]; simpl; [reflexivity|now rewrite IH]. Qed.

Lemma substring_append (a t : string) :
  substring (String.length a) (String.length (a ++ t) - String.length a) (a ++ t) = t.
Proof.
  induction a as [|c a IH]; simpl.
  - rewrite Nat.sub_0_r. apply substring_all.
  - exact IH.
Qed.

Lemma prefix_append (a t : string) : prefix a (a ++ t) = true.
Proof.
  induction a as [|c a IH]; simpl; [now destruct t|].
  destruct (Ascii.ascii_dec c c) as [_|H]; [exact IH|now elim H].
Qed.

Lemma replace_unfold (pat rep s : string) :
  JS.replace pat rep s
  = if prefix pat s then
      rep ++ substring (String.length pat) (String.length s - String.length pat) s
    else
      match s with
      | EmptyString => EmptyString
      | String c rest => String c (JS.replace pat rep rest)
      end.
Proof. destruct s; reflexivity. Qed.

(** At an occurrence of the pattern, it is replaced. *)
Lemma replace_here (pat rep t : string) :
  JS.replace pat rep (pat ++ t) = rep ++ t.
Proof.
  rewrite replace_unfold, prefix_append. now rewrite substring_append.
Qed.

(** A pattern that opens with a brace is not found in a string without. *)
Lemma replace_skip (pat rep a t : string) :
  Braces.opens pat = true ->
  Braces.noBrace a = true ->
  JS.replace pat rep (a ++ t) = a ++ JS.replace pat rep t.
Proof.
  intros Hp Ha. induction a as [|c a IH]; [reflexivity|].
  simpl in Ha. apply andb_prop in Ha as [Hc Ha].
  destruct pat as [|b pat]; [discriminate|]. simpl in Hp.
  apply Ascii.eqb_eq in Hp. subst b.
  cbn [append]. rewrite replace_unfold. cbn [prefix].
  destruct (Ascii.ascii_dec _ c) as [<-|_].
  - rewrite Ascii.eqb_refl in Hc. discriminate.
  - now rewrite IH.
Qed.

Lemma noBrace_digits (d : Decimal.uint) :
  Braces.noBrace (NilEmpty.string_of_uint d) = true.
Proof. induction d; simpl; auto. Qed.

Lemma noBrace_showZ (z : Z) : Braces.noBrace (JS.showZ z) = true.
Proof.
  unfold JS.showZ, NilZero.string_of_int, NilZero.string_of_uint.
  destruct (Z.to_int z) as [d|d]; destruct d; simpl; auto using noBrace_digits.
Qed.

End Url.

(** X18: the address fetched for the tile at column tx and row ty of level
    tileZ is the service address followed by tileZ, ty and tx in that
    order, the row before the column, separated by slashes. *)
Theorem tileUrl_spelled (tileZ tx ty : Z) :
  MapComponent.tileUrl tileZ tx ty
  = ("https://services.arcgisonline.com/ArcGIS/rest/services/World_Imagery/MapServer/tile/"
     ++ JS.showZ tileZ ++ "/" ++ JS.showZ ty ++ "/" ++ JS.showZ tx)%string.
Proof.
  unfold MapComponent.tileUrl, MapComponent.ARCGIS_TILE_URL.
  set (base := "https://services.arcgisonline.com/ArcGIS/rest/services/World_Imagery/MapServer/tile/"%string).
  assert (Hb : Braces.noBrace base = true) by reflexivity.
  pose proof (noBrace_showZ tileZ) as Hz.
  generalize dependent (JS.showZ tileZ). intros zs Hz.
  generalize (JS.showZ tx) (JS.showZ ty). intros xs ys.
  change ("https://services.arcgisonline.com/ArcGIS/rest/services/World_Imagery/MapServer/tile/{z}/{y}/{x}"%string)
    with (base ++ "{z}" ++ "/{y}/{x}")%string.
  rewrite (replace_skip "{z}" zs base) by (reflexivity || exact Hb).
  rewrite replace_here.
  rewrite (replace_skip "{x}" xs base) by (reflexivity || exact Hb).
  rewrite (replace_skip "{x}" xs zs) by (reflexivity || exact Hz).
  assert (Hx : JS.replace "{x}" xs "/{y}/{x}" = ("/" ++ "{y}" ++ "/" ++ xs)%string)
    by (cbn; now rewrite append_nil_r).
  rewrite Hx.
  rewrite (replace_skip "{y}" ys base) by (reflexivity || exact Hb).
  rewrite (replace_skip "{y}" ys zs) by (reflexivity || exact Hz).
  rewrite (replace_skip "{y}" ys "/") by reflexivity.
  now rewrite replace_here.
Qed.

(** ** More on the import *)

Section Batches.

Lemma to_uint_nonnil (n : nat) : Nat.to_uint n <> Decimal.Nil.
Proof.
  rewrite <- (DecimalNat.Unsigned.of_to n) at 1.
  rewrite DecimalNat.Unsigned.to_of. apply DecimalFacts.unorm_nonnil.
Qed.

Lemma showNat_inj (n m : nat) : JS.showNat n = JS.showNat m -> n = m.
Proof.
  unfold JS.showNat. intros H.
  apply DecimalNat.Unsigned.to_uint_inj.
  pose proof (NilZero.usu _ (to_uint_nonnil n)) as Hn.
  pose proof (NilZero.usu _ (to_uint_nonnil m)) as Hm.
  rewrite H, Hm in Hn. now injection Hn.
Qed.

Lemma mapRows_ids (random : nat -> R) (data : list App.Row.t) :
  forall k index,
    map DataPoint.id (App.mapRows random k data index)
    = map (fun i => ("point-" ++ JS.showNat i)%string) (seq index (length data)).
Proof.
  induction data as [|row rest IH]; intros k index; [reflexivity|].
  cbn [App.mapRows]. unfold App.rowToPoint.
  destruct (JS.truthy (JS.or (App.Row.valor row) (App.Row.value row)));
    cbn [map length seq DataPoint.id]; now rewrite IH.
Qed.

Lemma NoDup_map_filter {A B : Type} (g : A -> B) (f : A -> bool) (l : list A) :
  NoDup (map g l) -> NoDup (map g (filter f l)).
Proof.
  induction l as [|a l IH]; simpl; intros H; [constructor|].
  inversion H as [|? ? Hnot Hnd]; subst.
  destruct (f a); simpl; [|now apply IH].
  constructor; [|now apply IH].
  intros Hin. apply Hnot. apply in_map_iff in Hin as [b [Hb Hin]].
  apply filter_In in Hin as [Hin _]. apply in_map_iff. now exists b.
Qed.

Lemma point_ids_NoDup (index n : nat) :
  NoDup (map (fun i => ("point-" ++ JS.showNat i)%string) (seq index n)).
Proof.
  revert index. induction n as [|n IH]; intros index; simpl; constructor.
  - intros Hin. apply in_map_iff in Hin as [i [Hi Hin]].
    apply in_seq in Hin. injection Hi as Hi. apply showNat_inj in Hi. lia.
  - apply IH.
Qed.

Lemma rowToPoint_valued (r1 r2 : nat -> R) (k1 k2 : nat) (row : App.Row.t) (index : nat) :
  JS.truthy (JS.or (App.Row.valor row) (App.Row.value row)) = true ->
  App.rowToPoint r1 k1 row index = (fst (App.rowToPoint r2 k2 row index), k1).
Proof. intros H. unfold App.rowToPoint. now rewrite H. Qed.

Lemma mapRows_valued (r1 r2 : nat -> R) (data : list App.Row.t) :
  Forall (fun row => JS.truthy (JS.or (App.Row.valor row) (App.Row.value row)) = true)
         data ->
  forall k1 k2 index,
    App.mapRows r1 k1 data index = App.mapRows r2 k2 data index.
Proof.
  induction 1 as [|row rest Hrow Hrest IH]; intros k1 k2 index; [reflexivity|].
  cbn [App.mapRows].
  rewrite (rowToPoint_valued r1 r2 k1 k2 row index Hrow).
  rewrite (rowToPoint_valued r2 r2 k2 k2 row index Hrow).
  f_equal. apply IH.
Qed.

End Batches.

(** X19: the points an import leaves in the store have pairwise different
    ids: each id carries the position of its record in the batch, and
    discarding records does not bring two ids together. *)
Theorem import_ids_distinct
    (random : nat -> R) (data : list App.Row.t) (s : App.State) :
  NoDup (map DataPoint.id (App.dataPoints (App.handleExcelDataLoad random data s))).
Proof.
  unfold App.handleExcelDataLoad. cbn [App.dataPoints App.setDataPoints].
  apply NoDup_map_filter. rewrite mapRows_ids. apply point_ids_NoDup.
Qed.

(** X20: when every record of the batch carries a value that is not 0 (in
    its valor or its value column), the import does not depend on what
    [Math.random] answers: the same batch gives the same points. *)
Theorem import_without_random
    (r1 r2 : nat -> R) (data : list App.Row.t) (s : App.State) :
  Forall (fun row => JS.truthy (JS.or (App.Row.valor row) (App.Row.value row)) = true)
         data ->
  App.handleExcelDataLoad r1 data s = App.handleExcelDataLoad r2 data s.
Proof.
  intros H. unfold App.handleExcelDataLoad.
  now rewrite (mapRows_valued r1 r2 data H 0%nat 0%nat 0%nat).
Qed.

Lemma import_without_random_mockData :
  Forall (fun row => JS.truthy (JS.or (App.Row.valor row) (App.Row.value row)) = true)
         Sidebar.mockData
  /\ App.handleExcelDataLoad halves Sidebar.mockData App.initial
     = App.handleExcelDataLoad (fun _ => 0) Sidebar.mockData App.initial.
Proof.
  assert (H : Forall (fun row =>
                        JS.truthy (JS.or (App.Row.valor row) (App.Row.value row)) = true)
                     Sidebar.mockData).
  { unfold Sidebar.mockData, Sidebar.mockRow.
    repeat constructor; unfold JS.or, JS.truthy, JS.neqb; simpl;
      decide_R; reflexivity. }
  split; [exact H|].
  exact (import_without_random halves (fun _ => 0) Sidebar.mockData App.initial H).
Defined.

(** X21: an upload does not read the file it is given: whatever the file
    and whatever the store held, the point list is afterwards the eight
    records of the built-in table, all of them kept, with the ids point-0
    to point-7 and no derived value, and the polygons are as before;
    without a file nothing happens. *)
Theorem upload_loads_the_table (random : nat -> R) (fileName : string)
    (app : App.State) (sidebar : Sidebar.State) :
  let after :=
    Sidebar.handleFileUpload (App.handleExcelDataLoad random) (Some fileName)
      (app, sidebar) in
  App.dataPoints (fst after)
  = [ DataPoint.mk "point-0" 40.7128 (-74.0060) "Punto A" 85.5 None;
      DataPoint.mk "point-1" 40.7589 (-73.9851) "Punto B" 92.3 None;
      DataPoint.mk "point-2" 40.7282 (-73.7949) "Punto C" 78.1 None;
      DataPoint.mk "point-3" 40.6782 (-73.9442) "Punto D" 91.7 None;
      DataPoint.mk "point-4" 40.7505 (-73.9934) "Punto E" 88.9 None;
      DataPoint.mk "point-5" 40.7061 (-74.0088) "Punto F" 76.4 None;
      DataPoint.mk "point-6" 40.7614 (-73.9776) "Punto G" 94.2 None;
      DataPoint.mk "point-7" 40.7420 (-74.0020) "Punto H" 82.6 None ]
  /\ App.polygons (fst after) = App.polygons app
  /\ Sidebar.uploadedFileName (snd after) = Some fileName
  /\ Sidebar.handleFileUpload (App.handleExcelDataLoad random) None (app, sidebar)
     = (app, sidebar).
Proof.
  intros after. subst after. repeat split.
  unfold Sidebar.handleFileUpload, App.handleExcelDataLoad.
  cbn [fst App.dataPoints App.setDataPoints].
  assert (E : App.mapRows random 0 Sidebar.mockData 0
              = [ DataPoint.mk "point-0" 40.7128 (-74.0060) "Punto A" 85.5 None;
                  DataPoint.mk "point-1" 40.7589 (-73.9851) "Punto B" 92.3 None;
                  DataPoint.mk "point-2" 40.7282 (-73.7949) "Punto C" 78.1 None;
                  DataPoint.mk "point-3" 40.6782 (-73.9442) "Punto D" 91.7 None;
                  DataPoint.mk "point-4" 40.7505 (-73.9934) "Punto E" 88.9 None;
                  DataPoint.mk "point-5" 40.7061 (-74.0088) "Punto F" 76.4 None;
                  DataPoint.mk "point-6" 40.7614 (-73.9776) "Punto G" 94.2 None;
                  DataPoint.mk "point-7" 40.7420 (-74.0020) "Punto H" 82.6 None ]).
  { unfold Sidebar.mockData, Sidebar.mockRow, App.mapRows, App.rowToPoint.
    cbn [App.Row.latitud App.Row.lat App.Row.latitude App.Row.longitud App.Row.lng
           App.Row.longitude App.Row.nombre App.Row.name App.Row.valor App.Row.value].
    unfold JS.orNum, JS.or, JS.truthy, JS.neqb.
    decide_R. reflexivity. }
  rewrite E. unfold App.hasCoordinates, JS.neqb. cbn [filter DataPoint.lat DataPoint.lng].
  decide_R. reflexivity.
Qed.
